(** * dial: a DNS caching network dialer

    A shallow embedding of [dial.go] (package [dial]) and the properties of
    its lookup store, resolution logic and address selection.

    Modelling choices:
    - [time.Time] and [time.Duration] are integers counting nanoseconds;
      [Time.Add] is addition and [Time.After] is the strict order.
    - [[]string] is [list string]; a nil slice and an empty slice are both
      [[]] (the code only ever takes their [len]).
    - [map[string]*lookupResult] is [option (gmap string lookupResult)]:
      [None] is the nil map (reads miss, writes panic).  The pointed-to
      [lookupResult] values are never mutated after creation, so they are
      stored by value.
    - The cache, the collaborators' world, and the log of collaborator
      calls are threaded through a state monad whose computations either
      return or panic.
    - The [sync.RWMutex] is not modelled: every method runs to completion
      on one thread.  The [context.Context] argument is only passed on to
      the collaborators and is left out. *)

From Stdlib Require Import ZArith String Ascii List.
From stdpp Require Import base option list gmap strings.

Local Open Scope string_scope.
Local Open Scope list_scope.
Local Open Scope Z_scope.

(** ** Errors *)

Definition noSuchHost : string := "no such host".

(** An [error] value: the package's sentinel [errNoSuchHost], or any other
    error value, identified by the text its [Error()] method returns. *)
Inductive error : Type :=
| errNoSuchHost
| errOther (msg : string).

Definition Error (e : error) : string :=
  match e with
  | errNoSuchHost => noSuchHost
  | errOther msg => msg
  end.

(** [strings.Contains s substr]: [substr] occurs within [s]. *)
Fixpoint Contains (s substr : string) : bool :=
  String.prefix substr s ||
  match s with
  | EmptyString => false
  | String _ s' => Contains s' substr
  end.

(** ** Run-time panics the code can reach *)
Inductive GoPanic : Type :=
| AssignmentToNilMap      (* c.entries[name] = ... on a nil map *)
| NilDereference          (* method call on a nil interface value *)
| IntnInvalidArgument     (* rand.Intn(n) with n <= 0 *)
| IndexOutOfRange.        (* addrs[i] with i outside the slice *)

(** ** What lies outside the package

    [World] is the state of everything the cache talks to: the resolver
    and the dialer behind their interfaces, the clock behind [nowFunc],
    the source behind [rand.Intn], and the runtime's choice of where a
    [range] over a map starts. *)
Class Runtime : Type := {
  World : Type;
  Conn : Type;                                (* net.Conn *)
  time_Now : World -> Z * World;              (* time.Now *)
  rand_Int : World -> Z * World;              (* the math/rand source *)
  map_iter_start : World -> nat * World;      (* map iteration order *)
  net_ParseIP : string -> bool                (* net.ParseIP(s) != nil *)
}.

Section Dial.
Context `{RT : Runtime}.

(** type Resolver interface *)
Record Resolver : Type := {
  LookupHost : string -> World -> (list string * option error) * World
}.

(** type Dialer interface.  The method is [DialContext] in the source; it
    is prefixed here to keep the name free for the method of [Cache]. *)
Record Dialer : Type := {
  Dialer_DialContext :
    string -> string -> World -> (option Conn * option error) * World
}.

Record lookupResult : Type := {
  expires : Z;
  addrs : list string
}.

Record Options : Type := {
  ttl : Z;
  maxItems : Z;
  resolver : option Resolver;
  dialer : option Dialer
}.

Record Cache : Type := {
  options : Options;
  entries : option (gmap string lookupResult)
}.

Definition OptionFunc : Type := Options -> Options.

Definition Second : Z := 1000000000.

Definition defaultOptions : Options :=
  {| ttl := Second * 10; maxItems := 1024; resolver := None; dialer := None |}.

Definition WithTTL (d : Z) : OptionFunc :=
  fun o => {| ttl := d; maxItems := maxItems o;
              resolver := resolver o; dialer := dialer o |}.

Definition WithMaxItems (max : Z) : OptionFunc :=
  fun o => {| ttl := ttl o; maxItems := max;
              resolver := resolver o; dialer := dialer o |}.

Definition WithResolver (r : option Resolver) : OptionFunc :=
  fun o => {| ttl := ttl o; maxItems := maxItems o;
              resolver := r; dialer := dialer o |}.

Definition WithDialer (d : option Dialer) : OptionFunc :=
  fun o => {| ttl := ttl o; maxItems := maxItems o;
              resolver := resolver o; dialer := d |}.

(** The defaults [New] falls back to: [net.DefaultResolver], [&net.Dialer{}]. *)
Variable net_DefaultResolver : Resolver.
Variable net_Dialer : Dialer.

(** func New.  The capacity hint [maxItems+1] of [make] has no observable
    effect and is dropped. *)
Definition New (opts : list OptionFunc) : Cache :=
  let o := fold_left (fun o f => f o) opts defaultOptions in
  let e := if 0 <? maxItems o then Some (∅ : gmap string lookupResult) else None in
  let r := match resolver o with None => Some net_DefaultResolver | r => r end in
  let d := match dialer o with None => Some net_Dialer | d => d end in
  {| options := {| ttl := ttl o; maxItems := maxItems o;
                   resolver := r; dialer := d |};
     entries := e |}.

(** ** The monad *)

Inductive Event : Type :=
| EvLookupHost (host : string)
| EvDialContext (network address : string).

Record State : Type := mkState {
  cache : Cache;
  world : World;
  trace : list Event        (* collaborator calls so far, oldest first *)
}.

Inductive Outcome (A : Type) : Type :=
| Return (a : A) (s : State)
| Panicked (p : GoPanic).
Arguments Return {A} a s.
Arguments Panicked {A} p.

Definition M (A : Type) : Type := State -> Outcome A.

Definition ret {A} (a : A) : M A := fun s => Return a s.
Definition bind {A B} (m : M A) (f : A -> M B) : M B := fun s =>
  match m s with
  | Return a s' => f a s'
  | Panicked p => Panicked p
  end.

Notation "'let*' x ':=' m 'in' k" := (bind m (fun x => k))
  (at level 10, x pattern, m at level 100, k at level 200).

Definition panic {A} (p : GoPanic) : M A := fun _ => Panicked p.
Definition gets {A} (f : State -> A) : M A := fun s => Return (f s) s.

Definition setWorld (w : World) (s : State) : State :=
  {| cache := cache s; world := w; trace := trace s |}.

Definition putEntries (e : option (gmap string lookupResult)) : M unit :=
  fun s => Return tt {| cache := {| options := options (cache s); entries := e |};
                        world := world s; trace := trace s |}.

(** var nowFunc = time.Now *)
Definition nowFunc : M Z :=
  fun s => let '(t, w) := time_Now (world s) in Return t (setWorld w s).

(** rand.Intn(n): panics for n <= 0, otherwise some number in [0, n). *)
Definition rand_Intn (n : Z) : M Z :=
  if n <=? 0 then panic IntnInvalidArgument
  else fun s => let '(r, w) := rand_Int (world s) in Return (r mod n) (setWorld w s).

(** The key a [for k := range m] visits first: any key of [m], as the
    runtime decides; none when [m] is empty. *)
Definition firstKey (i : nat) (m : gmap string lookupResult) : option string :=
  let keys := (map_to_list m).*1 in keys !! (i mod length keys)%nat.

Definition rangeFirst (m : gmap string lookupResult) : M (option string) :=
  fun s => let '(i, w) := map_iter_start (world s) in
           Return (firstKey i m) (setWorld w s).

(** c.options.resolver.LookupHost(ctx, name) *)
Definition resolver_LookupHost (name : string) : M (list string * option error) :=
  fun s => match resolver (options (cache s)) with
           | None => Panicked NilDereference
           | Some r =>
               let '(res, w) := LookupHost r name (world s) in
               Return res {| cache := cache s; world := w;
                             trace := trace s ++ [EvLookupHost name] |}
           end.

(** c.options.dialer.DialContext(ctx, network, address) *)
Definition dialer_DialContext (network address : string)
  : M (option Conn * option error) :=
  fun s => match dialer (options (cache s)) with
           | None => Panicked NilDereference
           | Some d =>
               let '(res, w) := Dialer_DialContext d network address (world s) in
               Return res {| cache := cache s; world := w;
                             trace := trace s ++ [EvDialContext network address] |}
           end.

(** ** The methods of Cache *)

(** func (c *Cache) get *)
Definition get (name : string) : M (list string * bool) :=
  let* now := nowFunc in
  let* c := gets cache in
  match entries c ≫= (.!! name) with
  | Some r => if now <? expires r then ret (addrs r, true) else ret ([], false)
  | None => ret ([], false)
  end.

(** func (c *Cache) set *)
Definition set (name : string) (addrs' : list string) : M unit :=
  let* now := nowFunc in
  let* c := gets cache in
  let result := {| expires := now + ttl (options c); addrs := addrs' |} in
  match entries c with
  | None => panic AssignmentToNilMap
  | Some m =>
      let m1 := <[name := result]> m in
      if maxItems (options c) <? Z.of_nat (size m1) then
        let* k := rangeFirst m1 in
        match k with
        | Some k => putEntries (Some (delete k m1))
        | None => putEntries (Some m1)
        end
      else putEntries (Some m1)
  end.

(** func (c *Cache) lookup *)
Definition lookup (name : string) : M (list string * option error) :=
  let* c := gets cache in
  if (maxItems (options c) =? 0) || (ttl (options c) =? 0) then
    resolver_LookupHost name
  else
    let* (addrs', ok) := get name in
    if ok then
      if (length addrs' =? 0)%nat then ret ([], Some errNoSuchHost)
      else ret (addrs', None)
    else if net_ParseIP name then
      let* _ := set name [name] in ret ([name], None)
    else
      let* (addrs', err) := resolver_LookupHost name in
      let rest : M (list string * option error) :=
        if (length addrs' =? 0)%nat then
          let* _ := set name [] in ret ([], Some errNoSuchHost)
        else
          let* _ := set name addrs' in ret (addrs', None) in
      match err with
      | Some e =>
          if Contains (Error e) noSuchHost then
            let* _ := set name [] in ret ([], Some errNoSuchHost)
          else rest
      | None => rest
      end.

(** func (c *Cache) DialContext *)
Definition DialContext (network address : string)
  : M (option Conn * option error) :=
  let* (addrs', err) := lookup address in
  match err with
  | Some e => ret (None, Some e)
  | None =>
      if (length addrs' =? 1)%nat then
        match addrs' !! 0%nat with
        | Some a => dialer_DialContext network a
        | None => panic IndexOutOfRange
        end
      else
        let* idx := rand_Intn (Z.of_nat (length addrs')) in
        match addrs' !! Z.to_nat idx with
        | Some a => dialer_DialContext network a
        | None => panic IndexOutOfRange
        end
  end.

(** func (c *Cache) Dial: DialContext with context.Background(). *)
Definition Dial (network address : string) : M (option Conn * option error) :=
  DialContext network address.

(** ** Vocabulary of the properties *)

(** The entry stored under [name], if any; a nil map has none. *)
Definition entryOf (c : Cache) (name : string) : option lookupResult :=
  entries c ≫= (.!! name).

(** Caching is on: neither [ttl] nor [maxItems] is zero. *)
Definition cachingEnabled (c : Cache) : Prop :=
  maxItems (options c) <> 0 /\ ttl (options c) <> 0.

(** The store's invariant: the map is allocated and holds at most
    [maxItems] entries. *)
Definition withinCapacity (c : Cache) : Prop :=
  exists m, entries c = Some m /\ Z.of_nat (size m) <= maxItems (options c).

(** The entry [set] writes, and the map it leaves behind. *)
Definition stamped (c : Cache) (t : Z) (a : list string) : lookupResult :=
  {| expires := t + ttl (options c); addrs := a |}.

Definition evictFirst (i : nat) (m : gmap string lookupResult)
  : gmap string lookupResult :=
  match firstKey i m with Some k => delete k m | None => m end.

Definition withEntries (s : State) (m : gmap string lookupResult) (w : World)
  : State :=
  {| cache := {| options := options (cache s); entries := Some m |};
     world := w; trace := trace s |}.

(** The addresses [get] serves for [name] at clock reading [t]. *)
Definition live (c : Cache) (t : Z) (name : string) : option (list string) :=
  match entryOf c name with
  | Some r => if t <? expires r then Some (addrs r) else None
  | None => None
  end.

(** The resolver's answer counts as "no such host": its error says so, or
    it brought no addresses. *)
Definition notFound (a : list string) (err : option error) : bool :=
  match err with
  | Some e => Contains (Error e) noSuchHost
  | None => false
  end || (length a =? 0)%nat.

(** The state right after the resolver was called for [name]. *)
Definition resolved (s : State) (name : string) (w : World) : State :=
  {| cache := cache s; world := w; trace := trace s ++ [EvLookupHost name] |}.

(** Writing [name] will not push the store over [maxItems]: the store is
    below capacity, or it is within capacity and already holds an entry
    (live or expired) under [name]. *)
Definition hasRoom (c : Cache) (name : string) : Prop :=
  exists m, entries c = Some m /\
            Z.of_nat (size m) <= maxItems (options c) /\
            (Z.of_nat (size m) < maxItems (options c) \/ is_Some (m !! name)).

(** Every entry stored under a key that is an IP literal holds just that
    key: the only entries [lookup] writes under such keys. *)
Definition literalEntries (c : Cache) : Prop :=
  forall k r, entryOf c k = Some r -> net_ParseIP k = true -> addrs r = [k].

(** The states a cache built as [c0] can be in: its first state, and from
    there any number of [DialContext] calls, with the world outside free to
    change between calls. *)
Inductive reachable (c0 : Cache) : State -> Prop :=
| reach_start (w : World) (tr : list Event) :
    reachable c0 {| cache := c0; world := w; trace := tr |}
| reach_world (s : State) (w : World) (tr : list Event) :
    reachable c0 s ->
    reachable c0 {| cache := cache s; world := w; trace := tr |}
| reach_DialContext (s s' : State) (network address : string)
    (res : option Conn * option error) :
    reachable c0 s ->
    DialContext network address s = Return res s' ->
    reachable c0 s'.

End Dial.

Arguments Return {RT A} a s.
Arguments Panicked {RT A} p.

(** ** The collaborators of the package's test, and a concrete runtime

    [testResolver] and [testDialer] are the doubles of [TestDial]; the
    runtime below gives them a clock that advances by one nanosecond per
    reading and counters behind [rand.Intn] and the map iteration. *)

Record TestWorld : Type := {
  tw_clock : Z;
  tw_rand : Z;
  tw_iter : nat
}.

Definition isDigit (a : ascii) : bool :=
  (48 <=? nat_of_ascii a)%nat && (nat_of_ascii a <=? 57)%nat.

Definition digitVal (a : ascii) : nat := (nat_of_ascii a - 48)%nat.

(** Split at every ['.']. *)
Fixpoint fields (cur : list ascii) (s : list ascii) : list (list ascii) :=
  match s with
  | [] => [rev cur]
  | a :: s' =>
      if Ascii.eqb a "."%char then rev cur :: fields [] s'
      else fields (a :: cur) s'
  end.

(** One decimal field of a dotted quad: one to three digits, no leading
    zero, at most 255. *)
Definition octet (f : list ascii) : bool :=
  forallb isDigit f &&
  (1 <=? length f)%nat && (length f <=? 3)%nat &&
  match f with
  | a :: _ :: _ => negb (Ascii.eqb a "0"%char)
  | _ => true
  end &&
  (fold_left (fun n a => (10 * n + digitVal a)%nat) f 0%nat <=? 255)%nat.

(** The dotted-quad half of [net.ParseIP]; the examples use no IPv6. *)
Definition parseIPv4 (s : string) : bool :=
  match fields [] (list_ascii_of_string s) with
  | [a; b; c; d] => octet a && octet b && octet c && octet d
  | _ => false
  end.

#[export] Instance testRuntime : Runtime := {|
  World := TestWorld;
  Conn := string;                        (* testConn{address} *)
  time_Now w := (tw_clock w,
                 {| tw_clock := tw_clock w + 1; tw_rand := tw_rand w;
                    tw_iter := tw_iter w |});
  rand_Int w := (tw_rand w,
                 {| tw_clock := tw_clock w; tw_rand := tw_rand w + 1;
                    tw_iter := tw_iter w |});
  map_iter_start w := (tw_iter w,
                 {| tw_clock := tw_clock w; tw_rand := tw_rand w;
                    tw_iter := S (tw_iter w) |});
  net_ParseIP := parseIPv4
|}.

(** type testResolver struct { err error; addrs []string } *)
Definition testResolver (addrs' : list string) (err : option error)
  : @Resolver testRuntime :=
  {| LookupHost := fun _ w => ((addrs', err), w) |}.

(** type testDialer struct {} *)
Definition testDialer : @Dialer testRuntime :=
  {| Dialer_DialContext := fun _ address w => ((Some address, None), w) |}.

Definition testWorld0 : TestWorld :=
  {| tw_clock := 0; tw_rand := 0; tw_iter := 0 |}.

(** The cache of [TestDial], with its one-hour TTL, and a cache bounded
    by [max] items. *)
Definition testOptions (r : @Resolver testRuntime) : list (@OptionFunc testRuntime) :=
  [WithTTL (3600 * Second); WithDialer (Some testDialer); WithResolver (Some r)].

Definition testCache (r : @Resolver testRuntime) : @Cache testRuntime :=
  New r testDialer (testOptions r).

Definition testCacheMax (max : Z) (r : @Resolver testRuntime) : @Cache testRuntime :=
  New r testDialer (testOptions r ++ [WithMaxItems max]).

Definition start (c : @Cache testRuntime) : @State testRuntime :=
  {| cache := c; world := testWorld0; trace := [] |}.

Definition startAt (w : TestWorld) (c : @Cache testRuntime) : @State testRuntime :=
  {| cache := c; world := w; trace := [] |}.

(** The state a call leaves, for chaining calls in examples. *)
Definition stateOf {A} (o : @Outcome testRuntime A) (s : @State testRuntime)
  : @State testRuntime :=
  match o with Return _ s' => s' | Panicked _ => s end.

(** The value a call returns, if it returns. *)
Definition valueOf {A} (o : @Outcome testRuntime A) : option A :=
  match o with Return a _ => Some a | Panicked _ => None end.

(** The resolvers of [TestDial]'s cases, and one that times out. *)
Definition notFoundResolver : @Resolver testRuntime :=
  testResolver [] (Some (errOther noSuchHost)).

Definition emptyResolver : @Resolver testRuntime := testResolver [] None.

Definition singleResolver : @Resolver testRuntime :=
  testResolver ["127.0.0.1"] None.

Definition multiResolver : @Resolver testRuntime :=
  testResolver ["127.0.0.1"; "127.0.0.2"; "127.0.0.3"; "127.0.0.4"] None.

Definition timeoutResolver : @Resolver testRuntime :=
  testResolver [] (Some (errOther "lookup testing123: i/o timeout")).

(** A cache with caching switched off through [WithTTL(0)]. *)
Definition uncachedCache (r : @Resolver testRuntime) : @Cache testRuntime :=
  New r testDialer (testOptions r ++ [WithTTL 0]).

(** A one-entry cache that already holds ["a.example"], in a world where
    the next map iteration starts at the second key. *)
Definition crowdedStart : @State testRuntime :=
  startAt {| tw_clock := 0; tw_rand := 0; tw_iter := 1 |}
          (testCacheMax 1 notFoundResolver).

Definition crowded : @State testRuntime :=
  stateOf (Dial "tcp" "a.example" crowdedStart) crowdedStart.

(** A call, from state [s], and the state it leaves. *)
Definition dialFrom (address : string) (s : @State testRuntime) :=
  DialContext "tcp" address s.

Definition afterDial (address : string) (s : @State testRuntime)
  : @State testRuntime :=
  stateOf (dialFrom address s) s.

Definition afterLookup (name : string) (s : @State testRuntime)
  : @State testRuntime :=
  stateOf (lookup name s) s.

(** The world [start] begins in, with the random source at [r]. *)
Definition seeded (r : Z) : TestWorld :=
  {| tw_clock := 0; tw_rand := r; tw_iter := 0 |}.

(** A resolver that answers with an address and a timeout at once. *)
Definition flakyResolver : @Resolver testRuntime :=
  testResolver ["10.0.0.1"] (Some (errOther "lookup testing123: i/o timeout")).

(** A cache built with a negative TTL. *)
Definition negativeTTLCache (r : @Resolver testRuntime) : @Cache testRuntime :=
  New r testDialer (testOptions r ++ [WithTTL (-5)]).

Definition afterSet (name : string) (a : list string) (s : @State testRuntime)
  : @State testRuntime :=
  stateOf (set name a s) s.

(** The world at clock reading [t]. *)
Definition worldAt (t : Z) : TestWorld :=
  {| tw_clock := t; tw_rand := 0; tw_iter := 0 |}.



(** ** Properties *)

Section Properties.
Context `{RT : Runtime}.
Variable net_DefaultResolver : Resolver.
Variable net_Dialer : Dialer.

Ltac run :=
  unfold get, set, lookup, DialContext, Dial, bind, ret, gets, nowFunc, panic,
    putEntries, rangeFirst, resolver_LookupHost, dialer_DialContext,
    rand_Intn, setWorld; simpl.

Lemma get_eq (name : string) (s : State) (t : Z) (w : World) :
  time_Now (world s) = (t, w) ->
  get name s =
    Return (match entryOf (cache s) name with
            | Some r => if t <? expires r then (addrs r, true) else ([], false)
            | None => ([], false)
            end) (setWorld w s).
Proof.
  intros Ht. run. rewrite Ht. unfold entryOf. simpl.
  destruct (entries (cache s) ≫= (.!! name)) as [r|]; [|reflexivity].
  destruct (t <? expires r); reflexivity.
Qed.

(** C4: [get] finds [name] exactly when an entry is stored under it whose
    expiry lies strictly after the clock reading; it then returns that
    entry's addresses.  In every other case, an expired entry included, it
    reports not-found with no addresses.  The cache and the call log are
    the same afterwards. *)
Theorem get_found_iff_live (name : string) (s : State) :
  exists res s',
    get name s = Return res s' /\
    cache s' = cache s /\ trace s' = trace s /\
    world s' = snd (time_Now (world s)) /\
    (forall a, res = (a, true) <->
       exists r, entryOf (cache s) name = Some r /\
                 fst (time_Now (world s)) < expires r /\ a = addrs r) /\
    (forall r, entryOf (cache s) name = Some r ->
               expires r <= fst (time_Now (world s)) -> res = ([], false)) /\
    (entryOf (cache s) name = None -> res = ([], false)).
Proof.
  destruct (time_Now (world s)) as [t w] eqn:Ht.
  eexists _, _. split; [apply (get_eq name s t w Ht)|].
  simpl. repeat split; try reflexivity.
  - destruct (entryOf (cache s) name) as [r|]; [|discriminate].
    destruct (t <? expires r) eqn:E; [|discriminate].
    intros [= <-]. exists r. apply Z.ltb_lt in E. auto.
  - intros (r & -> & Hlt & ->). apply Z.ltb_lt in Hlt. rewrite Hlt. reflexivity.
  - intros r -> Hle. apply Z.ltb_ge in Hle. rewrite Hle. reflexivity.
  - intros ->. reflexivity.
Qed.

(** *** The store: [set] and its eviction *)

Lemma firstKey_member (i : nat) (m : gmap string lookupResult) :
  size m <> 0%nat -> exists k, firstKey i m = Some k /\ is_Some (m !! k).
Proof.
  intros Hne. unfold firstKey.
  assert (Hlen : length (map_to_list m).*1 = size m)
    by (rewrite length_fmap; apply length_map_to_list).
  destruct (lookup_lt_is_Some_2 (map_to_list m).*1
              (i mod length (map_to_list m).*1)%nat) as [k Hk].
  { apply Nat.mod_upper_bound. rewrite Hlen. exact Hne. }
  exists k. split; [exact Hk|].
  apply list_elem_of_lookup_2 in Hk.
  apply list_elem_of_fmap in Hk as ([k' v] & -> & Hin).
  apply elem_of_map_to_list in Hin. simpl. eauto.
Qed.

Lemma set_eq (name : string) (a : list string) (s : State)
    (t : Z) (w : World) (m : gmap string lookupResult) :
  time_Now (world s) = (t, w) ->
  entries (cache s) = Some m ->
  set name a s =
    let m1 := <[name := stamped (cache s) t a]> m in
    if maxItems (options (cache s)) <? Z.of_nat (size m1)
    then Return tt (withEntries s (evictFirst (fst (map_iter_start w)) m1)
                                  (snd (map_iter_start w)))
    else Return tt (withEntries s m1 w).
Proof.
  intros Ht Hm. run. rewrite Ht. simpl. rewrite Hm. fold (stamped (cache s) t a).
  destruct (maxItems (options (cache s)) <? _); [|reflexivity].
  simpl. destruct (map_iter_start w) as [i w']. simpl.
  unfold evictFirst. destruct (firstKey i _); reflexivity.
Qed.

Lemma set_nil_map (name : string) (a : list string) (s : State) :
  entries (cache s) = None -> set name a s = Panicked AssignmentToNilMap.
Proof.
  intros Hm. run. destruct (time_Now (world s)) as [t w]. simpl.
  rewrite Hm. reflexivity.
Qed.

Lemma evictFirst_size (i : nat) (m : gmap string lookupResult) :
  size m <> 0%nat ->
  exists k, is_Some (m !! k) /\ evictFirst i m = delete k m /\
            size (evictFirst i m) = pred (size m).
Proof.
  intros Hne. destruct (firstKey_member i m Hne) as (k & Hk & Hin).
  exists k. unfold evictFirst. rewrite Hk.
  split; [exact Hin|]. split; [reflexivity|].
  apply map_size_delete_Some, Hin.
Qed.

Lemma New_options (opts : list OptionFunc) :
  let o := fold_left (fun o f => f o) opts defaultOptions in
  let c := New net_DefaultResolver net_Dialer opts in
  ttl (options c) = ttl o /\ maxItems (options c) = maxItems o /\
  is_Some (resolver (options c)) /\ is_Some (dialer (options c)) /\
  entries c = if 0 <? maxItems o then Some ∅ else None.
Proof.
  simpl. repeat split.
  - destruct (resolver _); eauto.
  - destruct (dialer _); eauto.
Qed.

Lemma New_withinCapacity (opts : list OptionFunc) :
  0 < maxItems (options (New net_DefaultResolver net_Dialer opts)) ->
  withinCapacity (New net_DefaultResolver net_Dialer opts).
Proof.
  intros Hpos. destruct (New_options opts) as (_ & Hmax & _ & _ & He).
  exists ∅. rewrite He, <- Hmax. apply Z.ltb_lt in Hpos. rewrite Hpos.
  split; [reflexivity|]. rewrite map_size_empty. apply Z.ltb_lt in Hpos. lia.
Qed.

Lemma set_step (name : string) (a : list string) (s : State)
    (m : gmap string lookupResult) :
  entries (cache s) = Some m ->
  Z.of_nat (size m) <= maxItems (options (cache s)) ->
  let t := fst (time_Now (world s)) in
  let m1 := <[name := stamped (cache s) t a]> m in
  exists s' m',
    set name a s = Return tt s' /\
    options (cache s') = options (cache s) /\ trace s' = trace s /\
    entries (cache s') = Some m' /\
    Z.of_nat (size m1) <= maxItems (options (cache s)) + 1 /\
    Z.of_nat (size m') <= maxItems (options (cache s)) /\
    (maxItems (options (cache s)) < Z.of_nat (size m1) ->
       exists k, is_Some (m1 !! k) /\ m' = delete k m1 /\
                 size m' = pred (size m1)) /\
    (Z.of_nat (size m1) <= maxItems (options (cache s)) -> m' = m1).
Proof.
  intros Hm Hsize t m1.
  destruct (time_Now (world s)) as [t' w] eqn:Ht. simpl in t. subst t.
  rewrite (set_eq name a s t' w m Ht Hm). simpl. fold m1.
  assert (Hm1 : (size m1 <= S (size m))%nat).
  { unfold m1. rewrite map_size_insert. destruct (m !! name); simpl; lia. }
  assert (Hne : size m1 <> 0%nat).
  { unfold m1. rewrite map_size_insert.
    destruct (m !! name) eqn:E; simpl; [|lia].
    intros H0. apply map_size_empty_inv in H0. subst m.
    rewrite lookup_empty in E. discriminate. }
  destruct (maxItems (options (cache s)) <? Z.of_nat (size m1)) eqn:Hcmp.
  - apply Z.ltb_lt in Hcmp.
    destruct (evictFirst_size (fst (map_iter_start w)) m1 Hne)
      as (k & Hin & Hdel & Hsz).
    eexists _, _. split; [reflexivity|]. simpl.
    split; [reflexivity|]. split; [reflexivity|]. split; [reflexivity|].
    split; [lia|]. split; [lia|]. split; [|lia].
    intros _. exists k. auto.
  - apply Z.ltb_ge in Hcmp.
    eexists _, _. split; [reflexivity|]. simpl.
    split; [reflexivity|]. split; [reflexivity|]. split; [reflexivity|].
    split; [lia|]. split; [lia|]. split; [lia|]. reflexivity.
Qed.

(** C3: a cache built by [New] with [maxItems > 0] starts within capacity,
    and every [set] on a store within capacity returns with the store
    within capacity again.  The map just after the insert holds at most
    [maxItems + 1] entries; when it holds more than [maxItems], exactly one
    of its entries (whichever the iteration visits first) is deleted;
    otherwise nothing is. *)
Theorem set_preserves_capacity (opts : list OptionFunc) (s : State)
    (name : string) (a : list string) :
  0 < maxItems (options (New net_DefaultResolver net_Dialer opts)) ->
  options (cache s) = options (New net_DefaultResolver net_Dialer opts) ->
  withinCapacity (New net_DefaultResolver net_Dialer opts) /\
  (withinCapacity (cache s) ->
   exists m s' m',
     let m1 := <[name := stamped (cache s) (fst (time_Now (world s))) a]> m in
     entries (cache s) = Some m /\
     set name a s = Return tt s' /\
     options (cache s') = options (cache s) /\
     entries (cache s') = Some m' /\
     withinCapacity (cache s') /\
     Z.of_nat (size m1) <= maxItems (options (cache s)) + 1 /\
     (maxItems (options (cache s)) < Z.of_nat (size m1) ->
        exists k, is_Some (m1 !! k) /\ m' = delete k m1 /\
                  size m' = pred (size m1)) /\
     (Z.of_nat (size m1) <= maxItems (options (cache s)) -> m' = m1)).
Proof.
  intros Hpos Hopt. split; [apply New_withinCapacity, Hpos|].
  intros (m & Hm & Hsize).
  destruct (set_step name a s m Hm Hsize)
    as (s' & m' & Hset & Ho & _ & He & Hone & Hcap & Hev & Hno).
  exists m, s', m'. simpl. repeat split; auto.
  exists m'. rewrite Ho. auto.
Qed.

(** *** Resolution: the paths through [lookup] *)

Lemma enabled_test (c : Cache) :
  cachingEnabled c ->
  (maxItems (options c) =? 0) || (ttl (options c) =? 0) = false.
Proof.
  intros [Hm Ht]. apply orb_false_iff. split; apply Z.eqb_neq; assumption.
Qed.

Lemma disabled_test (c : Cache) :
  maxItems (options c) = 0 \/ ttl (options c) = 0 ->
  (maxItems (options c) =? 0) || (ttl (options c) =? 0) = true.
Proof.
  intros [H|H]; rewrite H; simpl; [reflexivity|apply orb_true_r].
Qed.

Lemma get_live (name : string) (s : State) (t : Z) (w : World) :
  time_Now (world s) = (t, w) ->
  get name s = Return (match live (cache s) t name with
                       | Some a => (a, true)
                       | None => ([], false)
                       end) (setWorld w s).
Proof.
  intros Ht. rewrite (get_eq name s t w Ht). unfold live.
  destruct (entryOf (cache s) name) as [r|]; [|reflexivity].
  destruct (t <? expires r); reflexivity.
Qed.

Lemma lookup_disabled_eq (name : string) (s : State) :
  maxItems (options (cache s)) = 0 \/ ttl (options (cache s)) = 0 ->
  lookup name s = resolver_LookupHost name s.
Proof.
  intros Hd. unfold lookup, bind, gets. rewrite (disabled_test _ Hd). reflexivity.
Qed.

Lemma lookup_hit_eq (name : string) (s : State) (t : Z) (w : World)
    (a : list string) :
  cachingEnabled (cache s) ->
  time_Now (world s) = (t, w) ->
  live (cache s) t name = Some a ->
  lookup name s =
    Return (if (length a =? 0)%nat then ([], Some errNoSuchHost) else (a, None))
           (setWorld w s).
Proof.
  intros He Ht Hl. unfold lookup, bind, gets. rewrite (enabled_test _ He).
  rewrite (get_live name s t w Ht), Hl.
  destruct (length a =? 0)%nat; reflexivity.
Qed.

Lemma lookup_miss_ip_eq (name : string) (s : State) (t : Z) (w : World) :
  cachingEnabled (cache s) ->
  time_Now (world s) = (t, w) ->
  live (cache s) t name = None ->
  net_ParseIP name = true ->
  lookup name s =
    match set name [name] (setWorld w s) with
    | Return _ s' => Return ([name], None) s'
    | Panicked p => Panicked p
    end.
Proof.
  intros He Ht Hl Hip. unfold lookup, bind, gets. rewrite (enabled_test _ He).
  rewrite (get_live name s t w Ht), Hl, Hip. reflexivity.
Qed.

Lemma lookup_miss_resolve_eq (name : string) (s : State) (t : Z) (w w1 : World)
    (r : Resolver) (a : list string) (err : option error) :
  cachingEnabled (cache s) ->
  time_Now (world s) = (t, w) ->
  live (cache s) t name = None ->
  net_ParseIP name = false ->
  resolver (options (cache s)) = Some r ->
  LookupHost r name w = ((a, err), w1) ->
  lookup name s =
    if notFound a err then
      match set name [] (resolved s name w1) with
      | Return _ s' => Return ([], Some errNoSuchHost) s'
      | Panicked p => Panicked p
      end
    else
      match set name a (resolved s name w1) with
      | Return _ s' => Return (a, None) s'
      | Panicked p => Panicked p
      end.
Proof.
  intros He Ht Hl Hip Hr Hres. unfold lookup, bind, gets.
  rewrite (enabled_test _ He), (get_live name s t w Ht), Hl, Hip.
  unfold resolver_LookupHost. simpl. rewrite Hr, Hres. unfold notFound, resolved.
  destruct err as [e|]; simpl.
  - destruct (Contains (Error e) noSuchHost); simpl; [reflexivity|].
    destruct (length a =? 0)%nat; reflexivity.
  - destruct (length a =? 0)%nat; reflexivity.
Qed.

Lemma resolver_LookupHost_eq (name : string) (s : State) (r : Resolver) :
  resolver (options (cache s)) = Some r ->
  resolver_LookupHost name s =
    Return (fst (LookupHost r name (world s)))
           (resolved s name (snd (LookupHost r name (world s)))).
Proof.
  intros Hr. unfold resolver_LookupHost. rewrite Hr.
  destruct (LookupHost r name (world s)) as [res w]. reflexivity.
Qed.

(** C5: with [ttl = 0] or [maxItems = 0], [lookup] is one call of the
    resolver: it returns the resolver's pair of addresses and error as it
    is, logs exactly that one call, leaves the cache as it was, and gives
    the same answer whatever the store holds. *)
Theorem lookup_disabled_bypasses_cache (name : string) (s : State) (r : Resolver) :
  maxItems (options (cache s)) = 0 \/ ttl (options (cache s)) = 0 ->
  resolver (options (cache s)) = Some r ->
  let answer := fst (LookupHost r name (world s)) in
  let w1 := snd (LookupHost r name (world s)) in
  exists s',
    lookup name s = Return answer s' /\
    cache s' = cache s /\ world s' = w1 /\
    trace s' = trace s ++ [EvLookupHost name] /\
    forall e : option (gmap string lookupResult),
      let c' := {| options := options (cache s); entries := e |} in
      lookup name {| cache := c'; world := world s; trace := trace s |}
      = Return answer {| cache := c'; world := w1;
                         trace := trace s ++ [EvLookupHost name] |}.
Proof.
  intros Hd Hr answer w1. eexists. split.
  { rewrite (lookup_disabled_eq name s Hd).
    apply (resolver_LookupHost_eq name s r Hr). }
  simpl. split; [reflexivity|]. split; [reflexivity|]. split; [reflexivity|].
  intros e. simpl.
  rewrite lookup_disabled_eq by exact Hd.
  rewrite (resolver_LookupHost_eq name _ r) by exact Hr. reflexivity.
Qed.

Lemma lookup_miss_noresolver (name : string) (s : State) (t : Z) (w : World) :
  cachingEnabled (cache s) ->
  time_Now (world s) = (t, w) ->
  live (cache s) t name = None ->
  net_ParseIP name = false ->
  resolver (options (cache s)) = None ->
  lookup name s = Panicked NilDereference.
Proof.
  intros He Ht Hl Hip Hr. unfold lookup, bind, gets.
  rewrite (enabled_test _ He), (get_live name s t w Ht), Hl, Hip.
  unfold resolver_LookupHost. simpl. rewrite Hr. reflexivity.
Qed.

Lemma notFound_false (a : list string) (err : option error) :
  notFound a err = false -> a <> [].
Proof.
  unfold notFound. intros H ->. rewrite orb_true_r in H. discriminate.
Qed.

Lemma lookup_enabled_nonempty (name : string) (s s' : State) (a : list string) :
  cachingEnabled (cache s) ->
  lookup name s = Return (a, None) s' -> a <> [].
Proof.
  intros He. destruct (time_Now (world s)) as [t w] eqn:Ht.
  destruct (live (cache s) t name) as [l|] eqn:Hl.
  - rewrite (lookup_hit_eq name s t w l He Ht Hl).
    destruct l; simpl; intros [= <- <-]. discriminate.
  - destruct (net_ParseIP name) eqn:Hip.
    + rewrite (lookup_miss_ip_eq name s t w He Ht Hl Hip).
      destruct (set name [name] (setWorld w s)); intros [= <- <-]. discriminate.
    + destruct (resolver (options (cache s))) as [r|] eqn:Hr.
      * destruct (LookupHost r name w) as [[a0 err] w1] eqn:Hres.
        rewrite (lookup_miss_resolve_eq name s t w w1 r a0 err He Ht Hl Hip Hr Hres).
        destruct (notFound a0 err) eqn:Hnf.
        -- destruct (set name [] _); discriminate.
        -- destruct (set name a0 _); intros [= <- <-].
           apply (notFound_false _ _ Hnf).
      * rewrite (lookup_miss_noresolver name s t w He Ht Hl Hip Hr). discriminate.
Qed.

Lemma set_panics (name : string) (a : list string) (s : State) (p : GoPanic) :
  set name a s = Panicked p -> p = AssignmentToNilMap.
Proof.
  destruct (time_Now (world s)) as [t w] eqn:Ht.
  destruct (entries (cache s)) as [m|] eqn:Hm.
  - rewrite (set_eq name a s t w m Ht Hm). simpl.
    destruct (_ <? _); discriminate.
  - rewrite (set_nil_map name a s Hm). congruence.
Qed.

Lemma lookup_panics (name : string) (s : State) (p : GoPanic) :
  lookup name s = Panicked p -> p = AssignmentToNilMap \/ p = NilDereference.
Proof.
  destruct (Z.eq_dec (maxItems (options (cache s))) 0) as [Hm|Hm];
    [|destruct (Z.eq_dec (ttl (options (cache s))) 0) as [Htt|Htt]].
  1,2: rewrite lookup_disabled_eq by auto; unfold resolver_LookupHost;
       destruct (resolver _); [destruct (LookupHost _ _ _); discriminate|];
       intros [= <-]; auto.
  assert (He : cachingEnabled (cache s)) by (split; assumption).
  destruct (time_Now (world s)) as [t w] eqn:Ht.
  destruct (live (cache s) t name) as [l|] eqn:Hl.
  - rewrite (lookup_hit_eq name s t w l He Ht Hl). discriminate.
  - destruct (net_ParseIP name) eqn:Hip.
    + rewrite (lookup_miss_ip_eq name s t w He Ht Hl Hip).
      destruct (set name [name] (setWorld w s)) eqn:Hs; [discriminate|].
      intros [= <-]. left. eapply set_panics, Hs.
    + destruct (resolver (options (cache s))) as [r|] eqn:Hr.
      * destruct (LookupHost r name w) as [[a0 err] w1] eqn:Hres.
        rewrite (lookup_miss_resolve_eq name s t w w1 r a0 err He Ht Hl Hip Hr Hres).
        destruct (notFound a0 err).
        -- destruct (set name [] _) eqn:Hs; [discriminate|].
           intros [= <-]. left. eapply set_panics, Hs.
        -- destruct (set name a0 _) eqn:Hs; [discriminate|].
           intros [= <-]. left. eapply set_panics, Hs.
      * rewrite (lookup_miss_noresolver name s t w He Ht Hl Hip Hr).
        intros [= <-]. auto.
Qed.

Lemma dialer_DialContext_panics (network a : string) (s : State) (p : GoPanic) :
  dialer_DialContext network a s = Panicked p -> p = NilDereference.
Proof.
  unfold dialer_DialContext. destruct (dialer _); [|congruence].
  destruct (Dialer_DialContext _ _ _ _). discriminate.
Qed.

(** What [DialContext] does once [lookup] has returned. *)
Lemma DialContext_after_lookup (network address : string) (s s1 : State)
    (a : list string) (err : option error) :
  lookup address s = Return (a, err) s1 ->
  DialContext network address s =
    match err with
    | Some e => Return (None, Some e) s1
    | None =>
        match a with
        | [x] => dialer_DialContext network x s1
        | [] => Panicked IntnInvalidArgument
        | _ =>
            let n := Z.of_nat (length a) in
            let '(r, w) := rand_Int (world s1) in
            match a !! Z.to_nat (r mod n) with
            | Some x => dialer_DialContext network x (setWorld w s1)
            | None => Panicked IndexOutOfRange
            end
        end
    end.
Proof.
  intros Hl. unfold DialContext, bind. rewrite Hl.
  destruct err as [e|]; [reflexivity|].
  destruct a as [|x [|y a]]; try reflexivity.
  change (length (x :: y :: a) =? 1)%nat with false. cbv iota.
  unfold rand_Intn.
  assert (E : (Z.of_nat (length (x :: y :: a)) <=? 0) = false)
    by (apply Z.leb_gt; apply (Nat2Z.inj_lt 0); simpl; lia).
  rewrite E. destruct (rand_Int (world s1)) as [r w].
  destruct (_ !! _); reflexivity.
Qed.

Lemma index_in_range (a : list string) (r : Z) :
  a <> [] ->
  exists x, a !! Z.to_nat (r mod Z.of_nat (length a)) = Some x /\ x ∈ a.
Proof.
  intros Hne.
  assert (0 < Z.of_nat (length a)) by (destruct a; [congruence|simpl; lia]).
  pose proof (Z.mod_pos_bound r (Z.of_nat (length a)) ltac:(lia)) as Hb.
  destruct (lookup_lt_is_Some_2 a (Z.to_nat (r mod Z.of_nat (length a))))
    as [x Hx]; [lia|].
  exists x. split; [exact Hx|]. eapply list_elem_of_lookup_2, Hx.
Qed.

(** *** Address selection and the dial *)

(** C7: after a successful resolution, a list of exactly one address is
    dialed as it is, on the state [lookup] left (nothing is drawn from the
    random source); a list of more than one address is indexed by a number
    drawn from the random source on this very call, and the address dialed
    is the list's element at that index, hence a member of the list. *)
Theorem DialContext_selects_address (network address : string) (s s1 : State)
    (a : list string) :
  lookup address s = Return (a, None) s1 ->
  (forall x, a = [x] ->
     DialContext network address s = dialer_DialContext network x s1) /\
  ((1 < length a)%nat ->
     let r := fst (rand_Int (world s1)) in
     let w := snd (rand_Int (world s1)) in
     exists x,
       a !! Z.to_nat (r mod Z.of_nat (length a)) = Some x /\ x ∈ a /\
       DialContext network address s
       = dialer_DialContext network x (setWorld w s1)).
Proof.
  intros Hl. rewrite (DialContext_after_lookup network address s s1 a None Hl).
  split.
  - intros x ->. reflexivity.
  - intros Hlen r w.
    destruct (index_in_range a r) as (x & Hx & Hin).
    { intros ->. simpl in Hlen. lia. }
    exists x. split; [exact Hx|]. split; [exact Hin|].
    destruct a as [|y [|z a]]; [simpl in Hlen; lia..|].
    subst r w. destruct (rand_Int (world s1)) as [r w]. simpl in *.
    cbv zeta. rewrite Hx. reflexivity.
Qed.

(** C8: when resolution succeeded with at least one address, [DialContext]
    returns the pair the dialer returned for one of those addresses, be it
    a connection or an error, and the cache after the call is the cache
    [lookup] left: the dial adds one entry to the call log and nothing
    else. *)
Theorem DialContext_returns_dialer_result (network address : string)
    (s s1 : State) (a : list string) (d : Dialer) :
  lookup address s = Return (a, None) s1 ->
  a <> [] ->
  dialer (options (cache s1)) = Some d ->
  exists x w,
    x ∈ a /\
    w = (if (length a =? 1)%nat then world s1
         else snd (rand_Int (world s1))) /\
    DialContext network address s
    = Return (fst (Dialer_DialContext d network x w))
        {| cache := cache s1;
           world := snd (Dialer_DialContext d network x w);
           trace := trace s1 ++ [EvDialContext network x] |}.
Proof.
  intros Hl Hne Hd.
  rewrite (DialContext_after_lookup network address s s1 a None Hl).
  assert (Hdial : forall x s2, cache s2 = cache s1 -> trace s2 = trace s1 ->
            dialer_DialContext network x s2
            = Return (fst (Dialer_DialContext d network x (world s2)))
                {| cache := cache s1;
                   world := snd (Dialer_DialContext d network x (world s2));
                   trace := trace s1 ++ [EvDialContext network x] |}).
  { intros x s2 Hc Ht. unfold dialer_DialContext. rewrite Hc, Hd, Ht.
    destruct (Dialer_DialContext d network x (world s2)). reflexivity. }
  destruct a as [|y [|z a]]; [congruence| |].
  - exists y, (world s1). split; [apply list_elem_of_here|].
    split; [reflexivity|]. apply Hdial; reflexivity.
  - destruct (index_in_range (y :: z :: a) (fst (rand_Int (world s1))))
      as (x & Hx & Hin); [discriminate|].
    exists x, (snd (rand_Int (world s1))). split; [exact Hin|].
    split; [reflexivity|].
    destruct (rand_Int (world s1)) as [r w]. simpl in *.
    cbv zeta. rewrite Hx. apply Hdial; reflexivity.
Qed.

(** C10: with caching enabled, a [lookup] that returns no error returns at
    least one address, and [DialContext] never calls [rand.Intn] on a
    length that is not positive.  With caching disabled, a resolver answer
    of no addresses and no error comes back from [lookup] as it is, and
    [DialContext] then calls [rand.Intn] on length zero. *)
Theorem selection_list_length (network name : string) (s : State) :
  (cachingEnabled (cache s) ->
     (forall a s', lookup name s = Return (a, None) s' -> (0 < length a)%nat) /\
     DialContext network name s <> Panicked IntnInvalidArgument /\
     DialContext network name s <> Panicked IndexOutOfRange) /\
  (forall r,
     maxItems (options (cache s)) = 0 \/ ttl (options (cache s)) = 0 ->
     resolver (options (cache s)) = Some r ->
     fst (LookupHost r name (world s)) = ([], None) ->
     (exists s', lookup name s = Return ([], None) s') /\
     DialContext network name s = Panicked IntnInvalidArgument).
Proof.
  split.
  - intros He.
    assert (Hpos : forall a s', lookup name s = Return (a, None) s' ->
                                (0 < length a)%nat).
    { intros a s' Hl. pose proof (lookup_enabled_nonempty name s s' a He Hl).
      destruct a; [congruence|simpl; lia]. }
    split; [exact Hpos|].
    destruct (lookup name s) as [[a err] s1|p] eqn:Hl.
    + rewrite (DialContext_after_lookup network name s s1 a err Hl).
      destruct err as [e|]; [split; discriminate|].
      specialize (Hpos a s1 eq_refl).
      destruct a as [|y [|z a]]; [simpl in Hpos; lia| |].
      * split; intros Hp; apply dialer_DialContext_panics in Hp; discriminate.
      * destruct (index_in_range (y :: z :: a) (fst (rand_Int (world s1))))
          as (x & Hx & _); [discriminate|].
        destruct (rand_Int (world s1)) as [r w]. simpl in *.
        cbv zeta. rewrite Hx.
        split; intros Hp; apply dialer_DialContext_panics in Hp; discriminate.
    + unfold DialContext, bind. rewrite Hl.
      destruct (lookup_panics name s p Hl) as [-> | ->]; split; discriminate.
  - intros r Hd Hr Hres.
    assert (Hl : lookup name s
                 = Return ([], None)
                     (resolved s name (snd (LookupHost r name (world s))))).
    { rewrite (lookup_disabled_eq name s Hd), (resolver_LookupHost_eq name s r Hr).
      rewrite Hres. reflexivity. }
    split; [eauto|].
    rewrite (DialContext_after_lookup network name s _ [] None Hl). reflexivity.
Qed.

(** C9: a cache built by [New] with [maxItems < 0] and [ttl <> 0] counts as
    enabled although [New] allocated no map, and its first [lookup] of any
    name, IP literal or not, panics in [set] on the write to the nil map.
    On a cache built by [New], [set] returns exactly when [maxItems > 0]. *)
Theorem negative_maxItems_writes_nil_map (opts : list OptionFunc) (w : World)
    (tr : list Event) (name : string) (a : list string) :
  let c := New net_DefaultResolver net_Dialer opts in
  let s := {| cache := c; world := w; trace := tr |} in
  (maxItems (options c) < 0 -> ttl (options c) <> 0 ->
     cachingEnabled c /\ entries c = None /\
     lookup name s = Panicked AssignmentToNilMap) /\
  ((exists s', set name a s = Return tt s') <-> 0 < maxItems (options c)).
Proof.
  intros c s.
  destruct (New_options opts) as (_ & Hmax & [r Hr] & _ & He).
  fold c in Hmax, Hr, He. rewrite <- Hmax in He.
  split.
  - intros Hneg Httl.
    assert (Hen : cachingEnabled c) by (split; [lia|exact Httl]).
    assert (Hnil : entries c = None).
    { rewrite He. destruct (0 <? maxItems (options c)) eqn:E; [|reflexivity].
      apply Z.ltb_lt in E. lia. }
    split; [exact Hen|]. split; [exact Hnil|].
    destruct (time_Now w) as [t w0] eqn:Ht.
    assert (Hl : live (cache s) t name = None).
    { unfold live, entryOf. change (cache s) with c. rewrite Hnil. reflexivity. }
    destruct (net_ParseIP name) eqn:Hip.
    + rewrite (lookup_miss_ip_eq name s t w0 Hen Ht Hl Hip).
      rewrite (set_nil_map name [name] (setWorld w0 s) Hnil). reflexivity.
    + destruct (LookupHost r name w0) as [[a0 err] w1] eqn:Hres.
      rewrite (lookup_miss_resolve_eq name s t w0 w1 r a0 err Hen Ht Hl Hip Hr Hres).
      rewrite (set_nil_map name [] (resolved s name w1) Hnil).
      rewrite (set_nil_map name a0 (resolved s name w1) Hnil).
      destruct (notFound a0 err); reflexivity.
  - destruct (0 <? maxItems (options c)) eqn:E.
    + apply Z.ltb_lt in E. split; [intros _; exact E|]. intros _.
      destruct (set_step name a s ∅ He) as (s' & _ & Hs & _).
      { rewrite map_size_empty. simpl. lia. }
      eauto.
    + apply Z.ltb_ge in E. split; [|lia].
      intros [s' Hs]. rewrite (set_nil_map name a s He) in Hs. discriminate.
Qed.

(** *** Negative caching *)

Lemma set_with_room (name : string) (a : list string) (s : State)
    (t : Z) (w : World) :
  hasRoom (cache s) name ->
  time_Now (world s) = (t, w) ->
  exists m, entries (cache s) = Some m /\
    set name a s
    = Return tt (withEntries s (<[name := stamped (cache s) t a]> m) w).
Proof.
  intros (m & Hm & Hle & Hroom) Ht. exists m. split; [exact Hm|].
  rewrite (set_eq name a s t w m Ht Hm). simpl.
  assert (Hfit : Z.of_nat (size (<[name := stamped (cache s) t a]> m))
                 <= maxItems (options (cache s))).
  { rewrite map_size_insert. destruct Hroom as [Hlt | [r0 Hin]].
    - destruct (m !! name); simpl; lia.
    - rewrite Hin. simpl. lia. }
  apply Z.ltb_ge in Hfit. rewrite Hfit. reflexivity.
Qed.

Lemma DialContext_negative_hit (network name : string) (s : State)
    (r : lookupResult) :
  cachingEnabled (cache s) ->
  entryOf (cache s) name = Some r ->
  addrs r = [] ->
  fst (time_Now (world s)) < expires r ->
  DialContext network name s
  = Return (None, Some errNoSuchHost) (setWorld (snd (time_Now (world s))) s).
Proof.
  intros He Hr Ha Hlt. destruct (time_Now (world s)) as [t w] eqn:Ht.
  simpl in *.
  assert (Hl : live (cache s) t name = Some []).
  { unfold live. rewrite Hr, Ha. apply Z.ltb_lt in Hlt. rewrite Hlt. reflexivity. }
  rewrite (DialContext_after_lookup network name s (setWorld w s) []
             (Some errNoSuchHost)); [reflexivity|].
  rewrite (lookup_hit_eq name s t w [] He Ht Hl). reflexivity.
Qed.

(** C2, amended: with caching enabled and room in the store for the
    hostname, when [get] misses, the hostname is no IP literal, and the
    resolver answers with an error saying "no such host" or with no
    addresses and no error, [DialContext] returns [errNoSuchHost] after one
    resolver call and leaves an empty entry under the hostname that expires
    [ttl] after the clock reading [set] took.  From any later state with
    that cache whose clock reads before that expiry, [DialContext] returns
    [errNoSuchHost] with no collaborator called.  Both kinds of answer lead
    to this one outcome. *)
Theorem not_found_is_cached_with_room (network name : string) (s : State)
    (r : Resolver) (t0 t1 : Z) (w0 w1 w2 : World)
    (a : list string) (err : option error) :
  cachingEnabled (cache s) ->
  hasRoom (cache s) name ->
  resolver (options (cache s)) = Some r ->
  net_ParseIP name = false ->
  time_Now (world s) = (t0, w0) ->
  live (cache s) t0 name = None ->
  LookupHost r name w0 = ((a, err), w1) ->
  (exists e, err = Some e /\ Contains (Error e) noSuchHost = true)
    \/ (err = None /\ a = []) ->
  time_Now w1 = (t1, w2) ->
  exists s1,
    DialContext network name s = Return (None, Some errNoSuchHost) s1 /\
    trace s1 = trace s ++ [EvLookupHost name] /\
    world s1 = w2 /\
    entryOf (cache s1) name
      = Some {| expires := t1 + ttl (options (cache s)); addrs := [] |} /\
    forall (w3 : World) (tr : list Event),
      fst (time_Now w3) < t1 + ttl (options (cache s)) ->
      DialContext network name {| cache := cache s1; world := w3; trace := tr |}
      = Return (None, Some errNoSuchHost)
          {| cache := cache s1; world := snd (time_Now w3); trace := tr |}.
Proof.
  intros He Hroom Hr Hip Ht0 Hl Hres Hnf Ht1.
  assert (Hnot : notFound a err = true).
  { unfold notFound. destruct Hnf as [(e & -> & Hc) | [-> ->]].
    - rewrite Hc. reflexivity.
    - reflexivity. }
  destruct (set_with_room name [] (resolved s name w1) t1 w2 Hroom Ht1)
    as (m & Hm & Hset).
  pose proof (lookup_miss_resolve_eq name s t0 w0 w1 r a err He Ht0 Hl Hip Hr Hres)
    as Hlook.
  rewrite Hnot, Hset in Hlook.
  eexists. split.
  { rewrite (DialContext_after_lookup network name s _ [] (Some errNoSuchHost) Hlook).
    reflexivity. }
  simpl. split; [reflexivity|]. split; [reflexivity|].
  set (c1 := {| options := options (cache s);
                entries := Some (<[name := stamped (cache s) t1 []]> m) |}).
  assert (Hentry : entryOf c1 name
          = Some {| expires := t1 + ttl (options (cache s)); addrs := [] |}).
  { unfold entryOf. simpl. apply lookup_insert_eq. }
  split; [exact Hentry|].
  intros w3 tr Hlt.
  apply (DialContext_negative_hit network name
           {| cache := c1; world := w3; trace := tr |} _ He Hentry eq_refl Hlt).
Qed.

(** *** IP literals *)

Lemma set_returns (name : string) (a : list string) (s : State)
    (m : gmap string lookupResult) :
  entries (cache s) = Some m ->
  exists s' m',
    set name a s = Return tt s' /\
    options (cache s') = options (cache s) /\ trace s' = trace s /\
    entries (cache s') = Some m' /\
    forall k r, m' !! k = Some r ->
      m !! k = Some r \/
      (k = name /\ r = stamped (cache s) (fst (time_Now (world s))) a).
Proof.
  intros Hm. destruct (time_Now (world s)) as [t w] eqn:Ht.
  rewrite (set_eq name a s t w m Ht Hm). simpl.
  assert (Hins : forall k r,
            <[name := stamped (cache s) t a]> m !! k = Some r ->
            m !! k = Some r \/ (k = name /\ r = stamped (cache s) t a)).
  { intros k r. rewrite lookup_insert. case_decide.
    - intros [= <-]. auto.
    - auto. }
  destruct (_ <? _).
  - eexists _, _. split; [reflexivity|]. simpl.
    split; [reflexivity|]. split; [reflexivity|]. split; [reflexivity|].
    intros k r. unfold evictFirst. destruct (firstKey _ _) as [k0|].
    + rewrite lookup_delete. case_decide; [discriminate|]. apply Hins.
    + apply Hins.
  - eexists _, _. split; [reflexivity|]. simpl.
    split; [reflexivity|]. split; [reflexivity|]. split; [reflexivity|].
    exact Hins.
Qed.

Lemma New_literalEntries (opts : list OptionFunc) :
  literalEntries (New net_DefaultResolver net_Dialer opts).
Proof.
  intros k r. unfold entryOf. destruct (New_options opts) as (_ & _ & _ & _ & ->).
  destruct (0 <? _); simpl; [rewrite lookup_empty|]; discriminate.
Qed.

Lemma set_literalEntries (name : string) (a : list string) (s s' : State) :
  literalEntries (cache s) ->
  (net_ParseIP name = true -> a = [name]) ->
  set name a s = Return tt s' ->
  literalEntries (cache s').
Proof.
  intros Hinv Ha Hset.
  destruct (entries (cache s)) as [m|] eqn:Hm;
    [|rewrite (set_nil_map name a s Hm) in Hset; discriminate].
  destruct (set_returns name a s m Hm) as (s2 & m' & Hs & _ & _ & Hm' & Hsub).
  rewrite Hs in Hset. injection Hset as <-.
  intros k r. unfold entryOf. rewrite Hm'. simpl. intros Hk Hip.
  destruct (Hsub k r Hk) as [Hold | [-> ->]].
  - apply (Hinv k r); [|exact Hip]. unfold entryOf. rewrite Hm. exact Hold.
  - simpl. auto.
Qed.

(** A property of the cache that every [set] made by [lookup] keeps is
    kept by [lookup] and by [DialContext]. *)
Lemma lookup_preserves (P : Cache -> Prop) :
  (forall name a s s',
     (net_ParseIP name = true -> a = [name]) ->
     P (cache s) -> set name a s = Return tt s' -> P (cache s')) ->
  forall name s s' (res : list string * option error),
    P (cache s) -> lookup name s = Return res s' -> P (cache s').
Proof.
  intros Hset name s s' res Hinv.
  destruct (Z.eq_dec (maxItems (options (cache s))) 0) as [Hm|Hm];
    [|destruct (Z.eq_dec (ttl (options (cache s))) 0) as [Htt|Htt]].
  1,2: rewrite lookup_disabled_eq by auto; unfold resolver_LookupHost;
       destruct (resolver _); [|discriminate];
       destruct (LookupHost _ _ _); intros [= _ <-]; exact Hinv.
  assert (He : cachingEnabled (cache s)) by (split; assumption).
  destruct (time_Now (world s)) as [t w] eqn:Ht.
  destruct (live (cache s) t name) as [l|] eqn:Hl.
  - rewrite (lookup_hit_eq name s t w l He Ht Hl). intros [= _ <-]. exact Hinv.
  - destruct (net_ParseIP name) eqn:Hip.
    + rewrite (lookup_miss_ip_eq name s t w He Ht Hl Hip).
      destruct (set name [name] (setWorld w s)) as [[] s2|] eqn:Hs; [|discriminate].
      intros [= _ <-].
      apply (Hset name [name] (setWorld w s) s2); auto.
    + destruct (resolver (options (cache s))) as [r|] eqn:Hr.
      * destruct (LookupHost r name w) as [[a0 err] w1] eqn:Hres.
        rewrite (lookup_miss_resolve_eq name s t w w1 r a0 err He Ht Hl Hip Hr Hres).
        destruct (notFound a0 err).
        -- destruct (set name [] _) as [[] s2|] eqn:Hs; [|discriminate].
           intros [= _ <-].
           apply (Hset name [] (resolved s name w1) s2);
             [congruence|exact Hinv|exact Hs].
        -- destruct (set name a0 _) as [[] s2|] eqn:Hs; [|discriminate].
           intros [= _ <-].
           apply (Hset name a0 (resolved s name w1) s2);
             [congruence|exact Hinv|exact Hs].
      * rewrite (lookup_miss_noresolver name s t w He Ht Hl Hip Hr). discriminate.
Qed.

Lemma DialContext_preserves (P : Cache -> Prop) :
  (forall name a s s',
     (net_ParseIP name = true -> a = [name]) ->
     P (cache s) -> set name a s = Return tt s' -> P (cache s')) ->
  forall network address s s' (res : option Conn * option error),
    P (cache s) -> DialContext network address s = Return res s' -> P (cache s').
Proof.
  intros Hset network address s s' res Hinv. unfold DialContext, bind.
  destruct (lookup address s) as [[a err] s1|] eqn:Hl; [|discriminate].
  pose proof (lookup_preserves P Hset address s s1 _ Hinv Hl) as H1.
  assert (Hd : forall x s2, cache s2 = cache s1 ->
            dialer_DialContext network x s2 = Return res s' -> P (cache s')).
  { intros x s2 Hc. unfold dialer_DialContext. destruct (dialer _); [|discriminate].
    destruct (Dialer_DialContext _ _ _ _). intros [= _ <-]. simpl.
    rewrite Hc. exact H1. }
  destruct err as [e|]; [intros [= _ <-]; exact H1|].
  destruct (length a =? 1)%nat.
  - destruct (a !! 0%nat); [|discriminate]. apply Hd. reflexivity.
  - unfold rand_Intn. destruct (_ <=? 0); [discriminate|].
    destruct (rand_Int (world s1)) as [r w]. simpl.
    destruct (a !! _); [|discriminate]. apply Hd. reflexivity.
Qed.

Lemma set_keeps_options (o : Options) (name : string) (a : list string)
    (s s' : State) :
  options (cache s) = o -> set name a s = Return tt s' -> options (cache s') = o.
Proof.
  intros Ho Hset.
  destruct (entries (cache s)) as [m|] eqn:Hm;
    [|rewrite (set_nil_map name a s Hm) in Hset; discriminate].
  destruct (set_returns name a s m Hm) as (s2 & m' & Hs & Ho' & _).
  rewrite Hs in Hset. injection Hset as <-. congruence.
Qed.

Lemma set_keeps_capacity (name : string) (a : list string) (s s' : State) :
  withinCapacity (cache s) -> set name a s = Return tt s' ->
  withinCapacity (cache s').
Proof.
  intros (m & Hm & Hsize) Hset.
  destruct (set_step name a s m Hm Hsize)
    as (s2 & m' & Hs & Ho & _ & He & _ & Hcap & _).
  rewrite Hs in Hset. injection Hset as <-.
  exists m'. rewrite Ho. auto.
Qed.

(** In every reachable state of a cache built by [New], the options are the
    ones [New] fixed, the entries under IP literals hold the literal, and,
    when [maxItems > 0], the store is allocated and within capacity. *)
Lemma reachable_invariants (opts : list OptionFunc) (s : State) :
  let c0 := New net_DefaultResolver net_Dialer opts in
  reachable c0 s ->
  options (cache s) = options c0 /\
  literalEntries (cache s) /\
  (0 < maxItems (options c0) -> withinCapacity (cache s)).
Proof.
  intros c0 Hreach.
  induction Hreach as [w tr | s w tr _ IH | s s' network address res _ IH Hd].
  - split; [reflexivity|]. split; [apply New_literalEntries|].
    apply New_withinCapacity.
  - exact IH.
  - destruct IH as (Ho & Hlit & Hcap). split; [|split].
    + apply (DialContext_preserves (fun c => options c = options c0))
        with (2 := Ho) (3 := Hd).
      intros name a s0 s0' _. apply set_keeps_options.
    + apply (DialContext_preserves literalEntries) with (2 := Hlit) (3 := Hd).
      intros name a s0 s0' Ha H0. apply set_literalEntries; assumption.
    + intros Hpos.
      apply (DialContext_preserves withinCapacity) with (2 := Hcap Hpos) (3 := Hd).
      intros name a s0 s0' _. apply set_keeps_capacity.
Qed.

(** C6, amended: with caching enabled and the map allocated, [DialContext]
    on an IP literal calls no resolver and dials the literal itself, and
    returns what the dialer returned.  When [get] misses, [lookup] hands
    [[host]] to [set] under [host] and returns [[host]]; the entry is in
    the store afterwards whenever the store had room for it.  When [get]
    hits, the store is left as it was. *)
Theorem ip_literal_dialed_directly (network host : string) (s : State)
    (d : Dialer) (t : Z) (w : World) :
  cachingEnabled (cache s) ->
  is_Some (entries (cache s)) ->
  literalEntries (cache s) ->
  net_ParseIP host = true ->
  dialer (options (cache s)) = Some d ->
  time_Now (world s) = (t, w) ->
  exists s1,
    lookup host s = Return ([host], None) s1 /\
    trace s1 = trace s /\
    DialContext network host s
    = Return (fst (Dialer_DialContext d network host (world s1)))
        {| cache := cache s1;
           world := snd (Dialer_DialContext d network host (world s1));
           trace := trace s ++ [EvDialContext network host] |} /\
    (live (cache s) t host = None ->
       set host [host] (setWorld w s) = Return tt s1 /\
       (hasRoom (cache s) host ->
          entryOf (cache s1) host
          = Some (stamped (cache s) (fst (time_Now w)) [host]))) /\
    (is_Some (live (cache s) t host) -> s1 = setWorld w s).
Proof.
  intros He [m Hm] Hinv Hip Hd Ht.
  assert (Hdial : forall s1, options (cache s1) = options (cache s) ->
            trace s1 = trace s ->
            lookup host s = Return ([host], None) s1 ->
            DialContext network host s
            = Return (fst (Dialer_DialContext d network host (world s1)))
                {| cache := cache s1;
                   world := snd (Dialer_DialContext d network host (world s1));
                   trace := trace s ++ [EvDialContext network host] |}).
  { intros s1 Ho Htr Hl.
    rewrite (DialContext_after_lookup network host s s1 [host] None Hl).
    unfold dialer_DialContext. rewrite Ho, Hd, Htr.
    destruct (Dialer_DialContext d network host (world s1)). reflexivity. }
  destruct (live (cache s) t host) as [l|] eqn:Hl.
  - assert (Hlit : l = [host]).
    { unfold live in Hl. destruct (entryOf (cache s) host) as [r|] eqn:Hr;
        [|discriminate].
      destruct (t <? expires r); [|discriminate].
      injection Hl as <-. apply (Hinv host r Hr Hip). }
    subst l.
    pose proof (lookup_hit_eq host s t w [host] He Ht Hl) as Hlook.
    simpl in Hlook.
    exists (setWorld w s). split; [exact Hlook|]. split; [reflexivity|].
    split; [apply Hdial; [reflexivity|reflexivity|exact Hlook]|].
    split; [discriminate|reflexivity].
  - destruct (set_returns host [host] (setWorld w s) m Hm)
      as (s1 & m' & Hset & Ho & Htr & _).
    pose proof (lookup_miss_ip_eq host s t w He Ht Hl Hip) as Hlook.
    rewrite Hset in Hlook.
    exists s1. split; [exact Hlook|]. split; [exact Htr|].
    split; [apply Hdial; [exact Ho|exact Htr|exact Hlook]|].
    split; [|intros [? ?]; discriminate].
    intros _. split; [exact Hset|].
    intros Hroom. destruct (time_Now w) as [t' w'] eqn:Ht'.
    destruct (set_with_room host [host] (setWorld w s) t' w' Hroom Ht')
      as (m0 & Hm0 & Hset').
    rewrite Hset' in Hset. injection Hset as <-.
    unfold entryOf. simpl. apply lookup_insert_eq.
Qed.

(** *** Resolver failures that do not say "no such host" *)

(** What lines 170 to 186 of [lookup] do with such a failure: the error is
    dropped.  With no addresses the miss is stored as a negative entry and
    reported as [errNoSuchHost]; with addresses they are stored and
    returned without error. *)
Lemma lookup_other_error (name : string) (s : State) (r : Resolver)
    (t0 : Z) (w0 w1 : World) (a : list string) (e : error) :
  cachingEnabled (cache s) ->
  resolver (options (cache s)) = Some r ->
  net_ParseIP name = false ->
  time_Now (world s) = (t0, w0) ->
  live (cache s) t0 name = None ->
  LookupHost r name w0 = ((a, Some e), w1) ->
  Contains (Error e) noSuchHost = false ->
  lookup name s =
    match set name a (resolved s name w1) with
    | Return _ s' =>
        Return (if (length a =? 0)%nat then ([], Some errNoSuchHost)
                else (a, None)) s'
    | Panicked p => Panicked p
    end.
Proof.
  intros He Hr Hip Ht Hl Hres Hc.
  rewrite (lookup_miss_resolve_eq name s t0 w0 w1 r a (Some e) He Ht Hl Hip Hr Hres).
  unfold notFound. rewrite Hc. simpl.
  destruct a; reflexivity.
Qed.

End Properties.

(** ** Further properties of the store and of resolution *)

Section Coverage.
Context `{RT : Runtime}.
Variable net_DefaultResolver : Resolver.
Variable net_Dialer : Dialer.

(** *** Writing and reading back *)

Lemma live_of_entry (c : Cache) (t : Z) (name : string) (r : lookupResult) :
  entryOf c name = Some r ->
  live c t name = if t <? expires r then Some (addrs r) else None.
Proof. intros H. unfold live. rewrite H. reflexivity. Qed.

(** [set] followed by [get]: when the store has room for [name], [set]
    returns, the entry under [name] carries the given addresses and
    expires [ttl] after the clock reading [set] took, every other key keeps
    its entry, and a later [get] of [name] on that cache finds the
    addresses exactly while its own clock reading is before that expiry. *)
Theorem set_then_get (name : string) (a : list string) (s : State)
    (t : Z) (w : World) :
  hasRoom (cache s) name ->
  time_Now (world s) = (t, w) ->
  exists s',
    set name a s = Return tt s' /\
    world s' = w /\ trace s' = trace s /\
    options (cache s') = options (cache s) /\
    entryOf (cache s') name = Some (stamped (cache s) t a) /\
    (forall k, k <> name -> entryOf (cache s') k = entryOf (cache s) k) /\
    forall s2, cache s2 = cache s' ->
      get name s2
      = Return (if fst (time_Now (world s2)) <? t + ttl (options (cache s))
                then (a, true) else ([], false))
          (setWorld (snd (time_Now (world s2))) s2).
Proof.
  intros Hroom Ht.
  destruct (set_with_room name a s t w Hroom Ht) as (m & Hm & Hset).
  eexists. split; [exact Hset|]. simpl.
  split; [reflexivity|]. split; [reflexivity|]. split; [reflexivity|].
  assert (Hentry : entryOf (cache (withEntries s (<[name := stamped (cache s) t a]> m) w))
                     name = Some (stamped (cache s) t a)).
  { unfold entryOf. simpl. apply lookup_insert_eq. }
  split; [exact Hentry|]. split.
  - intros k Hk. unfold entryOf. simpl. rewrite Hm. simpl.
    apply lookup_insert_ne. congruence.
  - intros s2 Hc. destruct (time_Now (world s2)) as [t2 w2] eqn:Ht2.
    rewrite (get_eq name s2 t2 w2 Ht2), Hc. simpl in *. rewrite Hentry. simpl.
    destruct (t2 <? t + ttl (options (cache s))); reflexivity.
Qed.

Lemma set_entry_after (name : string) (a : list string) (s s' : State) :
  set name a s = Return tt s' ->
  entryOf (cache s') name = None \/
  entryOf (cache s') name
  = Some (stamped (cache s) (fst (time_Now (world s))) a).
Proof.
  intros Hset.
  destruct (entries (cache s)) as [m|] eqn:Hm;
    [|rewrite (set_nil_map name a s Hm) in Hset; discriminate].
  destruct (time_Now (world s)) as [t w] eqn:Ht.
  rewrite (set_eq name a s t w m Ht Hm) in Hset. simpl in Hset.
  destruct (_ <? _); injection Hset as <-; unfold entryOf; simpl.
  - unfold evictFirst. destruct (firstKey _ _) as [k|].
    + rewrite lookup_delete. case_decide; [left; reflexivity|].
      right. apply lookup_insert_eq.
    + right. apply lookup_insert_eq.
  - right. apply lookup_insert_eq.
Qed.

(** With [ttl <= 0] an entry is stale from the moment it is written: after
    any [set] of [name], a [get] of [name] on that cache whose clock
    reading is not before the one [set] took reports not-found. *)
Theorem nonpositive_ttl_never_hits (name : string) (a : list string)
    (s s' s2 : State) :
  ttl (options (cache s)) <= 0 ->
  set name a s = Return tt s' ->
  cache s2 = cache s' ->
  fst (time_Now (world s)) <= fst (time_Now (world s2)) ->
  get name s2 = Return ([], false) (setWorld (snd (time_Now (world s2))) s2).
Proof.
  intros Httl Hset Hc Hmono.
  destruct (time_Now (world s2)) as [t2 w2] eqn:Ht2. simpl in *.
  rewrite (get_eq name s2 t2 w2 Ht2), Hc.
  destruct (set_entry_after name a s s' Hset) as [-> | ->]; [reflexivity|].
  simpl. destruct (t2 <? _) eqn:E; [|reflexivity].
  apply Z.ltb_lt in E. lia.
Qed.

Lemma hasRoom_after_insert (s : State) (name : string) (r : lookupResult)
    (m : gmap string lookupResult) (w : World) :
  hasRoom (cache s) name ->
  entries (cache s) = Some m ->
  hasRoom (cache (withEntries s (<[name := r]> m) w)) name.
Proof.
  intros (m0 & Hm0 & Hle & Hroom) Hm. rewrite Hm in Hm0. injection Hm0 as <-.
  exists (<[name := r]> m). simpl. split; [reflexivity|].
  assert (Hsz : Z.of_nat (size (<[name := r]> m)) <= maxItems (options (cache s))).
  { rewrite map_size_insert. destruct Hroom as [Hlt | [r0 Hin]].
    - destruct (m !! name); simpl; lia.
    - rewrite Hin. simpl. lia. }
  split; [exact Hsz|]. right. rewrite lookup_insert_eq. eauto.
Qed.

(** Two writes to one key: the second replaces the first.  When the store
    has room for [name], [set name a] followed by [set name b] leaves the
    store that a single [set name b] at the second clock reading would
    have left on the original map. *)
Theorem set_twice_last_wins (name : string) (a b : list string) (s : State)
    (m : gmap string lookupResult) (t1 t2 : Z) (w1 w2 : World) :
  hasRoom (cache s) name ->
  entries (cache s) = Some m ->
  time_Now (world s) = (t1, w1) ->
  time_Now w1 = (t2, w2) ->
  bind (set name a) (fun _ => set name b) s
  = Return tt (withEntries s (<[name := stamped (cache s) t2 b]> m) w2).
Proof.
  intros Hroom Hm Ht1 Ht2. unfold bind.
  destruct (set_with_room name a s t1 w1 Hroom Ht1) as (m0 & Hm0 & Hset1).
  rewrite Hm in Hm0. injection Hm0 as <-. rewrite Hset1.
  pose proof (hasRoom_after_insert s name (stamped (cache s) t1 a) m w1 Hroom Hm)
    as Hroom1.
  destruct (set_with_room name b _ t2 w2 Hroom1 Ht2) as (m1 & Hm1 & Hset2).
  simpl in Hm1. injection Hm1 as <-. rewrite Hset2.
  unfold withEntries, stamped. simpl. rewrite insert_insert_eq. reflexivity.
Qed.

(** *** A miss that reaches the resolver *)

Lemma lookup_miss_store (name : string) (s : State) (r : Resolver)
    (m : gmap string lookupResult) (t0 t1 : Z) (w0 w1 w2 : World)
    (a : list string) (err : option error) :
  cachingEnabled (cache s) ->
  hasRoom (cache s) name ->
  entries (cache s) = Some m ->
  resolver (options (cache s)) = Some r ->
  net_ParseIP name = false ->
  time_Now (world s) = (t0, w0) ->
  live (cache s) t0 name = None ->
  LookupHost r name w0 = ((a, err), w1) ->
  time_Now w1 = (t1, w2) ->
  lookup name s
  = Return (if notFound a err then ([], Some errNoSuchHost) else (a, None))
      (withEntries (resolved s name w1)
         (<[name := stamped (cache s) t1 (if notFound a err then [] else a)]> m)
         w2).
Proof.
  intros He Hroom Hm Hr Hip Ht0 Hl Hres Ht1.
  rewrite (lookup_miss_resolve_eq name s t0 w0 w1 r a err He Ht0 Hl Hip Hr Hres).
  destruct (notFound a err).
  - destruct (set_with_room name [] (resolved s name w1) t1 w2 Hroom Ht1)
      as (m0 & Hm0 & ->).
    simpl in Hm0. rewrite Hm in Hm0. injection Hm0 as <-. reflexivity.
  - destruct (set_with_room name a (resolved s name w1) t1 w2 Hroom Ht1)
      as (m0 & Hm0 & ->).
    simpl in Hm0. rewrite Hm in Hm0. injection Hm0 as <-. reflexivity.
Qed.

(** Positive caching: with caching enabled and room in the store, a miss
    on a name that is no IP literal, answered by the resolver with at least
    one address and no error, returns those addresses after one resolver
    call and stores them to expire [ttl] after the write.  Any later
    [lookup] of that name on that cache whose clock reads before the expiry
    returns the same addresses, calls no collaborator and leaves the cache
    as it is (a hit does not renew the entry). *)
Theorem resolved_addresses_are_cached (name : string) (s : State)
    (r : Resolver) (t0 t1 : Z) (w0 w1 w2 : World) (a : list string) :
  cachingEnabled (cache s) ->
  hasRoom (cache s) name ->
  resolver (options (cache s)) = Some r ->
  net_ParseIP name = false ->
  time_Now (world s) = (t0, w0) ->
  live (cache s) t0 name = None ->
  LookupHost r name w0 = ((a, None), w1) ->
  a <> [] ->
  time_Now w1 = (t1, w2) ->
  exists s1,
    lookup name s = Return (a, None) s1 /\
    trace s1 = trace s ++ [EvLookupHost name] /\
    world s1 = w2 /\
    entryOf (cache s1) name
      = Some {| expires := t1 + ttl (options (cache s)); addrs := a |} /\
    forall (w3 : World) (tr : list Event),
      fst (time_Now w3) < t1 + ttl (options (cache s)) ->
      lookup name {| cache := cache s1; world := w3; trace := tr |}
      = Return (a, None)
          {| cache := cache s1; world := snd (time_Now w3); trace := tr |}.
Proof.
  intros He Hroom Hr Hip Ht0 Hl Hres Hne Ht1.
  destruct Hroom as (m & Hm & Hroom').
  assert (Hroom : hasRoom (cache s) name) by (exists m; auto).
  pose proof (lookup_miss_store name s r m t0 t1 w0 w1 w2 a None
                He Hroom Hm Hr Hip Ht0 Hl Hres Ht1) as Hlook.
  assert (Hnf : notFound a None = false).
  { unfold notFound. simpl. destruct a; [congruence|reflexivity]. }
  rewrite Hnf in Hlook.
  eexists. split; [exact Hlook|]. simpl.
  split; [reflexivity|]. split; [reflexivity|].
  set (c1 := {| options := options (cache s);
                entries := Some (<[name := stamped (cache s) t1 a]> m) |}).
  assert (Hentry : entryOf c1 name
          = Some {| expires := t1 + ttl (options (cache s)); addrs := a |}).
  { unfold entryOf. simpl. apply lookup_insert_eq. }
  split; [exact Hentry|].
  intros w3 tr Hlt. destruct (time_Now w3) as [t3 w4] eqn:Ht3. simpl in *.
  assert (Hlive : live c1 t3 name = Some a).
  { rewrite (live_of_entry c1 t3 name _ Hentry). simpl.
    apply Z.ltb_lt in Hlt. rewrite Hlt. reflexivity. }
  rewrite (lookup_hit_eq name {| cache := c1; world := w3; trace := tr |}
             t3 w4 a He Ht3 Hlive).
  destruct a; [congruence|reflexivity].
Qed.


(** A resolver error whose text lacks "no such host" is not returned: with
    caching enabled and room in the store, [lookup] goes on with the
    addresses that came with it.  With none it stores an empty entry and
    returns [errNoSuchHost]; with some it stores and returns them with no
    error at all. *)
Theorem other_resolver_error_is_dropped (name : string) (s : State)
    (r : Resolver) (t0 t1 : Z) (w0 w1 w2 : World)
    (a : list string) (e : error) :
  cachingEnabled (cache s) ->
  hasRoom (cache s) name ->
  resolver (options (cache s)) = Some r ->
  net_ParseIP name = false ->
  time_Now (world s) = (t0, w0) ->
  live (cache s) t0 name = None ->
  LookupHost r name w0 = ((a, Some e), w1) ->
  Contains (Error e) noSuchHost = false ->
  time_Now w1 = (t1, w2) ->
  exists s1,
    lookup name s
    = Return (match a with [] => ([], Some errNoSuchHost) | _ => (a, None) end) s1 /\
    trace s1 = trace s ++ [EvLookupHost name] /\
    entryOf (cache s1) name
      = Some {| expires := t1 + ttl (options (cache s)); addrs := a |}.
Proof.
  intros He Hroom Hr Hip Ht0 Hl Hres Hc Ht1.
  destruct Hroom as (m & Hm & Hroom').
  assert (Hroom : hasRoom (cache s) name) by (exists m; auto).
  pose proof (lookup_miss_store name s r m t0 t1 w0 w1 w2 a (Some e)
                He Hroom Hm Hr Hip Ht0 Hl Hres Ht1) as Hlook.
  unfold notFound in Hlook. rewrite Hc in Hlook. simpl in Hlook.
  eexists. split.
  { rewrite Hlook. destruct a; reflexivity. }
  simpl. split; [reflexivity|].
  unfold entryOf. simpl. rewrite lookup_insert_eq.
  destruct a; reflexivity.
Qed.

(** *** What one call does to the collaborators and to the configuration *)

Lemma set_keeps_trace (name : string) (a : list string) (s s' : State) :
  set name a s = Return tt s' -> trace s' = trace s /\ is_Some (entries (cache s)).
Proof.
  intros Hset.
  destruct (entries (cache s)) as [m|] eqn:Hm;
    [|rewrite (set_nil_map name a s Hm) in Hset; discriminate].
  destruct (set_returns name a s m Hm) as (s2 & m' & Hs & _ & Ht & _).
  rewrite Hs in Hset. injection Hset as <-. eauto.
Qed.

Lemma lookup_trace_eq (name : string) (s s' : State)
    (res : list string * option error) :
  lookup name s = Return res s' ->
  trace s' =
    trace s ++
    (if (maxItems (options (cache s)) =? 0) || (ttl (options (cache s)) =? 0)
     then [EvLookupHost name]
     else match live (cache s) (fst (time_Now (world s))) name with
          | Some _ => []
          | None => if net_ParseIP name then [] else [EvLookupHost name]
          end).
Proof.
  destruct ((maxItems (options (cache s)) =? 0) || (ttl (options (cache s)) =? 0))
    eqn:Hd.
  - apply orb_true_iff in Hd. rewrite !Z.eqb_eq in Hd.
    rewrite (lookup_disabled_eq name s Hd). unfold resolver_LookupHost.
    destruct (resolver _); [|discriminate].
    destruct (LookupHost _ _ _). intros [= _ <-]. reflexivity.
  - apply orb_false_iff in Hd. rewrite !Z.eqb_neq in Hd.
    assert (He : cachingEnabled (cache s)) by exact Hd.
    destruct (time_Now (world s)) as [t w] eqn:Ht. simpl.
    destruct (live (cache s) t name) as [l|] eqn:Hl.
    + rewrite (lookup_hit_eq name s t w l He Ht Hl). intros [= _ <-]. simpl.
      symmetry. apply app_nil_r.
    + destruct (net_ParseIP name) eqn:Hip.
      * rewrite (lookup_miss_ip_eq name s t w He Ht Hl Hip).
        destruct (set name [name] (setWorld w s)) as [[] s2|] eqn:Hs; [|discriminate].
        intros [= _ <-]. apply set_keeps_trace in Hs as [-> _]. simpl.
        symmetry. apply app_nil_r.
      * destruct (resolver (options (cache s))) as [r|] eqn:Hr.
        -- destruct (LookupHost r name w) as [[a0 err] w1] eqn:Hres.
           rewrite (lookup_miss_resolve_eq name s t w w1 r a0 err He Ht Hl Hip Hr Hres).
           destruct (notFound a0 err).
           ++ destruct (set name [] _) as [[] s2|] eqn:Hs; [|discriminate].
              intros [= _ <-]. apply set_keeps_trace in Hs as [-> _]. reflexivity.
           ++ destruct (set name a0 _) as [[] s2|] eqn:Hs; [|discriminate].
              intros [= _ <-]. apply set_keeps_trace in Hs as [-> _]. reflexivity.
        -- rewrite (lookup_miss_noresolver name s t w He Ht Hl Hip Hr). discriminate.
Qed.

(** One [DialContext] makes at most one resolver call, about the address it
    was given, then at most one dial, on the network it was given: it never
    resolves twice and never dials a second address.  The resolver is asked
    exactly when caching is disabled, or when [get] misses on an address
    that is no IP literal.  The dialer is called unless resolution returned
    an error, and then that error is the result. *)
Theorem DialContext_call_log (network address : string) (s s' : State)
    (res : option Conn * option error) :
  DialContext network address s = Return res s' ->
  exists dialed,
    trace s' =
      trace s ++
      (if (maxItems (options (cache s)) =? 0) || (ttl (options (cache s)) =? 0)
       then [EvLookupHost address]
       else match live (cache s) (fst (time_Now (world s))) address with
            | Some _ => []
            | None => if net_ParseIP address then [] else [EvLookupHost address]
            end) ++ dialed /\
    (dialed = [] \/ exists x, dialed = [EvDialContext network x]) /\
    (dialed = [] ->
       exists a e, lookup address s = Return (a, Some e) s' /\ res = (None, Some e)).
Proof.
  intros Hd. destruct (lookup address s) as [[a err] s1|p] eqn:Hl;
    [|unfold DialContext, bind in Hd; rewrite Hl in Hd; discriminate].
  pose proof (lookup_trace_eq address s s1 _ Hl) as Htr.
  rewrite (DialContext_after_lookup network address s s1 a err Hl) in Hd.
  assert (Hdial : forall x s2, trace s2 = trace s1 ->
            dialer_DialContext network x s2 = Return res s' ->
            trace s' = trace s1 ++ [EvDialContext network x]).
  { intros x s2 Ht. unfold dialer_DialContext. destruct (dialer _); [|discriminate].
    destruct (Dialer_DialContext _ _ _ _). intros [= _ <-]. simpl.
    rewrite Ht. reflexivity. }
  destruct err as [e|].
  - injection Hd as <- <-. exists []. rewrite app_nil_r.
    split; [exact Htr|]. split; [auto|]. intros _. eauto.
  - assert (Hx : exists x, trace s' = trace s1 ++ [EvDialContext network x]).
    { destruct a as [|y [|z a]]; [discriminate| |].
      - exists y. apply (Hdial y s1 eq_refl Hd).
      - destruct (rand_Int (world s1)) as [r w]. cbv zeta in Hd.
        destruct (_ !! _) as [x|]; [|discriminate].
        exists x. apply (Hdial x (setWorld w s1) eq_refl Hd). }
    destruct Hx as [x Hx]. exists [EvDialContext network x].
    split; [rewrite Hx, Htr, app_assoc; reflexivity|].
    split; [eauto|]. discriminate.
Qed.

(** A failed resolution is never dialed: when [lookup] returns an error,
    [DialContext] returns no connection and that same error, in the state
    [lookup] left, whatever addresses came with the error. *)
Theorem resolution_failure_is_not_dialed (network address : string)
    (s s1 : State) (a : list string) (e : error) :
  lookup address s = Return (a, Some e) s1 ->
  DialContext network address s = Return (None, Some e) s1 /\
  forall ev, ev ∈ trace s1 -> ev ∈ trace s \/ ev = EvLookupHost address.
Proof.
  intros Hl. split.
  - rewrite (DialContext_after_lookup network address s s1 a (Some e) Hl).
    reflexivity.
  - intros ev. rewrite (lookup_trace_eq address s s1 _ Hl).
    rewrite elem_of_app. intros [H|H]; [auto|]. right.
    destruct (_ || _); [apply list_elem_of_singleton in H; exact H|].
    destruct (live _ _ _); [inversion H|].
    destruct (net_ParseIP address); [inversion H|].
    apply list_elem_of_singleton in H. exact H.
Qed.

(** The configuration is fixed at construction: no [DialContext] changes
    [ttl], [maxItems], the resolver or the dialer. *)
Theorem DialContext_keeps_options (network address : string) (s s' : State)
    (res : option Conn * option error) :
  DialContext network address s = Return res s' ->
  options (cache s') = options (cache s).
Proof.
  intros Hd.
  apply (DialContext_preserves (fun c => options c = options (cache s)))
    with (2 := eq_refl) (3 := Hd).
  intros name a s0 s0' _. apply set_keeps_options.
Qed.

(** *** Panics *)

Lemma set_panic_nil (name : string) (a : list string) (s : State) (p : GoPanic) :
  set name a s = Panicked p -> p = AssignmentToNilMap /\ entries (cache s) = None.
Proof.
  destruct (time_Now (world s)) as [t w] eqn:Ht.
  destruct (entries (cache s)) as [m|] eqn:Hm.
  - rewrite (set_eq name a s t w m Ht Hm). simpl.
    destruct (_ <? _); discriminate.
  - rewrite (set_nil_map name a s Hm). intros [= <-]. auto.
Qed.

Lemma lookup_panic_cases (name : string) (s : State) (p : GoPanic) :
  lookup name s = Panicked p ->
  (p = AssignmentToNilMap /\ cachingEnabled (cache s) /\ entries (cache s) = None)
  \/ (p = NilDereference /\ resolver (options (cache s)) = None).
Proof.
  destruct (Z.eq_dec (maxItems (options (cache s))) 0) as [Hm|Hm];
    [|destruct (Z.eq_dec (ttl (options (cache s))) 0) as [Htt|Htt]].
  1,2: rewrite lookup_disabled_eq by auto; unfold resolver_LookupHost;
       destruct (resolver _); [destruct (LookupHost _ _ _); discriminate|];
       intros [= <-]; auto.
  assert (He : cachingEnabled (cache s)) by (split; assumption).
  destruct (time_Now (world s)) as [t w] eqn:Ht.
  destruct (live (cache s) t name) as [l|] eqn:Hl.
  - rewrite (lookup_hit_eq name s t w l He Ht Hl). discriminate.
  - destruct (net_ParseIP name) eqn:Hip.
    + rewrite (lookup_miss_ip_eq name s t w He Ht Hl Hip).
      destruct (set name [name] (setWorld w s)) eqn:Hs; [discriminate|].
      intros [= <-]. left. apply set_panic_nil in Hs as [-> Hnil]. auto.
    + destruct (resolver (options (cache s))) as [r|] eqn:Hr.
      * destruct (LookupHost r name w) as [[a0 err] w1] eqn:Hres.
        rewrite (lookup_miss_resolve_eq name s t w w1 r a0 err He Ht Hl Hip Hr Hres).
        destruct (notFound a0 err).
        -- destruct (set name [] _) eqn:Hs; [discriminate|].
           intros [= <-]. left. apply set_panic_nil in Hs as [-> Hnil]. auto.
        -- destruct (set name a0 _) eqn:Hs; [discriminate|].
           intros [= <-]. left. apply set_panic_nil in Hs as [-> Hnil]. auto.
      * rewrite (lookup_miss_noresolver name s t w He Ht Hl Hip Hr).
        intros [= <-]. auto.
Qed.

Lemma lookup_keeps_options (name : string) (s s' : State)
    (res : list string * option error) :
  lookup name s = Return res s' -> options (cache s') = options (cache s).
Proof.
  intros Hl.
  apply (lookup_preserves (fun c => options c = options (cache s)))
    with (2 := eq_refl) (3 := Hl).
  intros n a s0 s0' _. apply set_keeps_options.
Qed.

Lemma DialContext_panic_cases (network address : string) (s : State)
    (p : GoPanic) :
  DialContext network address s = Panicked p ->
  (p = AssignmentToNilMap /\ cachingEnabled (cache s) /\ entries (cache s) = None)
  \/ (p = NilDereference /\
      (resolver (options (cache s)) = None \/ dialer (options (cache s)) = None))
  \/ (p = IntnInvalidArgument /\
      (maxItems (options (cache s)) = 0 \/ ttl (options (cache s)) = 0) /\
      exists s1, lookup address s = Return ([], None) s1).
Proof.
  intros Hd. destruct (lookup address s) as [[a err] s1|q] eqn:Hl.
  - rewrite (DialContext_after_lookup network address s s1 a err Hl) in Hd.
    pose proof (lookup_keeps_options address s s1 _ Hl) as Ho.
    assert (Hdial : forall x s2, cache s2 = cache s1 ->
              dialer_DialContext network x s2 = Panicked p ->
              p = NilDereference /\ dialer (options (cache s)) = None).
    { intros x s2 Hc. unfold dialer_DialContext. rewrite Hc, Ho.
      destruct (dialer _); [destruct (Dialer_DialContext _ _ _ _); discriminate|].
      intros [= <-]. auto. }
    destruct err as [e|]; [discriminate|].
    destruct a as [|y [|z a]].
    + injection Hd as <-. right. right. split; [reflexivity|].
      split; [|eauto].
      destruct (Z.eq_dec (maxItems (options (cache s))) 0) as [Hm|Hm]; [auto|].
      destruct (Z.eq_dec (ttl (options (cache s))) 0) as [Htt|Htt]; [auto|].
      exfalso. apply (lookup_enabled_nonempty address s s1 [] (conj Hm Htt) Hl).
      reflexivity.
    + right. left. destruct (Hdial y s1 eq_refl Hd). auto.
    + destruct (index_in_range (y :: z :: a) (fst (rand_Int (world s1))))
        as (x & Hx & _); [discriminate|].
      destruct (rand_Int (world s1)) as [r w].
      change (fst (r, w)) with r in Hx. cbv zeta in Hd. rewrite Hx in Hd.
      right. left. destruct (Hdial x (setWorld w s1) eq_refl Hd). auto.
  - unfold DialContext, bind in Hd. rewrite Hl in Hd. injection Hd as <-.
    destruct (lookup_panic_cases address s q Hl) as [H | [-> Hr]]; auto.
Qed.

(** *** Caches built by [New], in every state they reach *)

Lemma reachable_allocated (opts : list OptionFunc) (s : State) :
  let c0 := New net_DefaultResolver net_Dialer opts in
  reachable c0 s ->
  (is_Some (entries (cache s)) <-> 0 < maxItems (options c0)).
Proof.
  intros c0 Hreach.
  induction Hreach as [w tr | s w tr _ IH | s s' network address res _ IH Hd].
  - destruct (New_options net_DefaultResolver net_Dialer opts)
      as (_ & Hmax & _ & _ & He).
    fold c0 in Hmax, He. rewrite <- Hmax in He.
    change (is_Some (entries c0) <-> 0 < maxItems (options c0)). rewrite He.
    destruct (0 <? maxItems (options c0)) eqn:E.
    + apply Z.ltb_lt in E. split; eauto.
    + apply Z.ltb_ge in E. split; [intros [? ?]; discriminate|lia].
  - exact IH.
  - apply (DialContext_preserves
             (fun c => is_Some (entries c) <-> 0 < maxItems (options c0)))
      with (2 := IH) (3 := Hd).
    intros name a s0 s0' _ HP Hset.
    destruct (entries (cache s0)) as [m|] eqn:Hm;
      [|rewrite (set_nil_map name a s0 Hm) in Hset; discriminate].
    destruct (set_returns name a s0 m Hm) as (s2 & m' & Hs & _ & _ & Hm' & _).
    rewrite Hs in Hset. injection Hset as <-. rewrite Hm'.
    split; [intros _; apply HP; eauto|eauto].
Qed.

(** On a cache built by [New], in any state it reaches, [DialContext]
    returns whenever [maxItems > 0] and [ttl <> 0].  It can panic in two
    ways only: on the nil-map write, when [maxItems < 0] and [ttl <> 0]; in
    [rand.Intn], when caching is disabled and the resolver answers with no
    addresses and no error.  It never finds a collaborator nil and never
    indexes the address list out of range. *)
Theorem New_DialContext_returns_or_panics (opts : list OptionFunc) (s : State)
    (network address : string) :
  let c0 := New net_DefaultResolver net_Dialer opts in
  reachable c0 s ->
  (0 < maxItems (options c0) -> ttl (options c0) <> 0 ->
     exists res s', DialContext network address s = Return res s') /\
  (forall p, DialContext network address s = Panicked p ->
     (p = AssignmentToNilMap /\ maxItems (options c0) < 0 /\ ttl (options c0) <> 0)
     \/ (p = IntnInvalidArgument /\
         (maxItems (options c0) = 0 \/ ttl (options c0) = 0) /\
         exists s1, lookup address s = Return ([], None) s1)).
Proof.
  intros c0 Hreach.
  assert (Hcases : forall p, DialContext network address s = Panicked p ->
     (p = AssignmentToNilMap /\ maxItems (options c0) < 0 /\ ttl (options c0) <> 0)
     \/ (p = IntnInvalidArgument /\
         (maxItems (options c0) = 0 \/ ttl (options c0) = 0) /\
         exists s1, lookup address s = Return ([], None) s1)).
  { intros p Hd.
    destruct (reachable_invariants net_DefaultResolver net_Dialer opts s Hreach)
      as (Ho & _ & _).
    pose proof (reachable_allocated opts s Hreach) as Halloc.
    destruct (New_options net_DefaultResolver net_Dialer opts)
      as (_ & _ & [r Hr] & [d Hdl] & _).
    fold c0 in Ho, Halloc, Hr, Hdl.
    destruct (DialContext_panic_cases network address s p Hd)
      as [(-> & [Hm Ht] & Hnil) | [(-> & [H | H]) | (-> & Hdis & Hempty)]].
    - left. split; [reflexivity|]. rewrite Ho in Hm, Ht. split; [|exact Ht].
      destruct (Z.lt_trichotomy (maxItems (options c0)) 0) as [Hlt | [Heq | Hgt]];
        [exact Hlt|congruence|].
      apply Halloc in Hgt. rewrite Hnil in Hgt. destruct Hgt; discriminate.
    - rewrite Ho, Hr in H. discriminate.
    - rewrite Ho, Hdl in H. discriminate.
    - right. rewrite Ho in Hdis. auto. }
  split; [|exact Hcases].
  intros Hpos Httl.
  destruct (DialContext network address s) as [res s'|p] eqn:Hd; [eauto|].
  destruct (Hcases p eq_refl) as [(_ & Hneg & _) | (_ & [H0 | H0] & _)];
    [lia|lia|congruence].
Qed.

(** After any number of [DialContext] calls on a cache built by [New] with
    [maxItems > 0], whatever the resolver and the dialer answered, the
    store holds at most [maxItems] entries. *)
Theorem New_store_stays_within_capacity (opts : list OptionFunc) (s : State) :
  let c0 := New net_DefaultResolver net_Dialer opts in
  0 < maxItems (options c0) ->
  reachable c0 s ->
  exists m, entries (cache s) = Some m /\
            Z.of_nat (size m) <= maxItems (options c0).
Proof.
  intros c0 Hpos Hreach. subst c0.
  destruct (reachable_invariants net_DefaultResolver net_Dialer opts s Hreach)
    as (Ho & _ & Hcap).
  destruct (Hcap Hpos) as (m & Hm & Hsz). exists m. rewrite <- Ho. auto.
Qed.

(** On a cache built by [New], an entry under a key that is an IP literal
    holds that literal and nothing else, in every state the cache reaches:
    no resolver answer ever lands under an IP literal. *)
Theorem New_literal_entries_hold_literal (opts : list OptionFunc) (s : State)
    (k : string) (r : lookupResult) :
  reachable (New net_DefaultResolver net_Dialer opts) s ->
  entryOf (cache s) k = Some r ->
  net_ParseIP k = true ->
  addrs r = [k].
Proof.
  intros Hreach.
  destruct (reachable_invariants net_DefaultResolver net_Dialer opts s Hreach)
    as (_ & Hlit & _).
  apply Hlit.
Qed.

(** *** Construction *)

(** Options compose from left to right and the last one wins: appending
    [WithTTL], [WithMaxItems], [WithResolver] or [WithDialer] to any list
    of options sets that one field of the cache [New] builds and leaves the
    other three as the list alone gave them.  The map is allocated, empty,
    exactly when the final [maxItems] is positive, and a nil resolver or
    dialer is replaced by the default. *)
Theorem New_last_option_wins (opts : list OptionFunc) (d n : Z)
    (r : option Resolver) (dl : option Dialer) :
  let new := New net_DefaultResolver net_Dialer in
  (ttl (options (new (opts ++ [WithTTL d]))) = d /\
   maxItems (options (new (opts ++ [WithTTL d]))) = maxItems (options (new opts)) /\
   resolver (options (new (opts ++ [WithTTL d]))) = resolver (options (new opts)) /\
   dialer (options (new (opts ++ [WithTTL d]))) = dialer (options (new opts)) /\
   entries (new (opts ++ [WithTTL d])) = entries (new opts)) /\
  (maxItems (options (new (opts ++ [WithMaxItems n]))) = n /\
   ttl (options (new (opts ++ [WithMaxItems n]))) = ttl (options (new opts)) /\
   resolver (options (new (opts ++ [WithMaxItems n]))) = resolver (options (new opts)) /\
   dialer (options (new (opts ++ [WithMaxItems n]))) = dialer (options (new opts)) /\
   entries (new (opts ++ [WithMaxItems n])) = if 0 <? n then Some ∅ else None) /\
  (resolver (options (new (opts ++ [WithResolver r])))
     = Some (default net_DefaultResolver r) /\
   ttl (options (new (opts ++ [WithResolver r]))) = ttl (options (new opts)) /\
   maxItems (options (new (opts ++ [WithResolver r]))) = maxItems (options (new opts)) /\
   dialer (options (new (opts ++ [WithResolver r]))) = dialer (options (new opts)) /\
   entries (new (opts ++ [WithResolver r])) = entries (new opts)) /\
  (dialer (options (new (opts ++ [WithDialer dl])))
     = Some (default net_Dialer dl) /\
   ttl (options (new (opts ++ [WithDialer dl]))) = ttl (options (new opts)) /\
   maxItems (options (new (opts ++ [WithDialer dl]))) = maxItems (options (new opts)) /\
   resolver (options (new (opts ++ [WithDialer dl]))) = resolver (options (new opts)) /\
   entries (new (opts ++ [WithDialer dl])) = entries (new opts)).
Proof.
  intros new. unfold new, New. rewrite !fold_left_app. simpl.
  split; [|split; [|split]].
  - repeat split.
  - repeat split.
  - split; [destruct r; reflexivity|]. repeat split.
  - split; [destruct dl; reflexivity|]. repeat split.
Qed.

(** *** The substring test on the resolver's message *)

Lemma append_cons (c : ascii) (a b : string) :
  (String c a ++ b)%string = String c (a ++ b)%string.
Proof. reflexivity. Qed.

Lemma prefix_iff (sub s : string) :
  String.prefix sub s = true <-> exists post, s = (sub ++ post)%string.
Proof.
  revert s. induction sub as [|c sub IH]; intros s.
  - destruct s; simpl; split; eauto.
  - destruct s as [|c' s]; simpl.
    + split; [discriminate|]. intros [post H]. rewrite append_cons in H.
      discriminate.
    + destruct (Ascii.ascii_dec c c') as [->|Hne].
      * rewrite IH. split; intros [post H]; exists post;
          rewrite append_cons in *; congruence.
      * split; [discriminate|]. intros [post H]. rewrite append_cons in H.
        congruence.
Qed.

(** [Contains s substr] holds exactly when [s] is some text, then [substr],
    then some text; so [lookup] takes a resolver error for "no such host"
    wherever in its message those words stand. *)
Theorem Contains_iff (s substr : string) :
  Contains s substr = true <->
  exists pre post, s = (pre ++ substr ++ post)%string.
Proof.
  induction s as [|c s IH].
  - change (Contains "" substr) with (String.prefix substr "" || false).
    rewrite orb_false_r, prefix_iff. split.
    + intros [post H]. exists ""%string, post. exact H.
    + intros (pre & post & H). destruct pre as [|c' pre]; [eauto|].
      rewrite append_cons in H. discriminate.
  - change (Contains (String c s) substr)
      with (String.prefix substr (String c s) || Contains s substr).
    rewrite orb_true_iff, prefix_iff, IH. split.
    + intros [[post H] | (pre & post & H)].
      * exists ""%string, post. exact H.
      * exists (String c pre), post. rewrite append_cons. congruence.
    + intros (pre & post & H). destruct pre as [|c' pre].
      * left. eauto.
      * right. exists pre, post. rewrite append_cons in H. congruence.
Qed.

End Coverage.

(** ** The properties at work on the test's collaborators *)

Lemma returned {A} (o : @Outcome testRuntime A) (a : A) (s : @State testRuntime) :
  valueOf o = Some a -> o = Return a (stateOf o s).
Proof. destruct o; simpl; [intros [= ->]; reflexivity | discriminate]. Qed.

Ltac returns := apply returned; vm_compute; reflexivity.

Example Contains_wrapped :
  Contains "lookup testing123: no such host" noSuchHost = true.
Proof. reflexivity. Qed.

Example Contains_empty : Contains "i/o timeout" "" = true.
Proof. reflexivity. Qed.

Example parseIPv4_literal : parseIPv4 "127.0.0.1" = true.
Proof. reflexivity. Qed.

Example parseIPv4_hostname : parseIPv4 "testing123" = false.
Proof. reflexivity. Qed.

Example parseIPv4_range : parseIPv4 "256.0.0.1" = false.
Proof. reflexivity. Qed.

Example get_hit_then_expired :
  valueOf (get "testing123"
             (afterDial "testing123" (start (testCache singleResolver))))
  = Some (["127.0.0.1"], true) /\
  valueOf (get "testing123"
             (setWorld {| tw_clock := 3600 * Second + 1; tw_rand := 0; tw_iter := 0 |}
                (afterDial "testing123" (start (testCache singleResolver)))))
  = Some ([], false).
Proof. split; vm_compute; reflexivity. Qed.

Lemma not_found_is_cached_with_room_witness :
  cachingEnabled (testCache notFoundResolver) /\
  hasRoom (testCache notFoundResolver) "testing123" /\
  exists s1,
    DialContext "tcp" "testing123" (start (testCache notFoundResolver))
    = Return (None, Some errNoSuchHost) s1 /\
    trace s1 = [EvLookupHost "testing123"] /\
    entryOf (cache s1) "testing123"
      = Some {| expires := 1 + 3600 * Second; addrs := [] |} /\
    DialContext "tcp" "testing123" s1
      = Return (None, Some errNoSuchHost) (setWorld (snd (time_Now (world s1))) s1).
Proof.
  set (s := start (testCache notFoundResolver)).
  assert (He : cachingEnabled (cache s)) by (split; vm_compute; discriminate).
  assert (Hroom : hasRoom (cache s) "testing123").
  { exists ∅. split; [reflexivity|]. split; [vm_compute; discriminate|].
    left. vm_compute. reflexivity. }
  split; [exact He|]. split; [exact Hroom|].
  edestruct (not_found_is_cached_with_room "tcp" "testing123" s
               notFoundResolver 0 1) as (s1 & H1 & H2 & H3 & H4 & H5);
    [exact He | exact Hroom | reflexivity | reflexivity | reflexivity
    | reflexivity | reflexivity
    | left; eexists; split; reflexivity | reflexivity |].
  exists s1. split; [exact H1|]. split; [exact H2|]. split; [exact H4|].
  specialize (H5 (world s1) (trace s1)).
  destruct s1 as [c1 w1 tr1]. simpl in *. apply H5.
  rewrite H3. vm_compute. reflexivity.
Defined.

(** C2 as stated fails at capacity: in a one-entry cache that holds
    ["a.example"], the not-found answer for ["testing123"] is written and
    at once evicted (the iteration visits the new key first), so no entry
    is left under ["testing123"] and the next call, one clock tick later,
    asks the resolver again. *)
Lemma not_found_entry_evicted_at_capacity :
  Dial "tcp" "a.example" crowdedStart = Return (None, Some errNoSuchHost) crowded /\
  cachingEnabled (cache crowded) /\
  net_ParseIP "testing123" = false /\
  (forall w, LookupHost notFoundResolver "testing123" w
             = (([], Some (errOther noSuchHost)), w)) /\
  Contains (Error (errOther noSuchHost)) noSuchHost = true /\
  dialFrom "testing123" crowded
  = Return (None, Some errNoSuchHost) (afterDial "testing123" crowded) /\
  trace (afterDial "testing123" crowded)
  = [EvLookupHost "a.example"; EvLookupHost "testing123"] /\
  entryOf (cache (afterDial "testing123" crowded)) "testing123" = None /\
  fst (time_Now (world (afterDial "testing123" crowded)))
  < 3 + ttl (options (cache (afterDial "testing123" crowded))) /\
  dialFrom "testing123" (afterDial "testing123" crowded)
  = Return (None, Some errNoSuchHost)
      (afterDial "testing123" (afterDial "testing123" crowded)) /\
  trace (afterDial "testing123" (afterDial "testing123" crowded))
  = [EvLookupHost "a.example"; EvLookupHost "testing123";
     EvLookupHost "testing123"].
Proof.
  split; [returns|].
  split; [split; vm_compute; discriminate|].
  split; [reflexivity|]. split; [reflexivity|]. split; [reflexivity|].
  split; [returns|]. split; [vm_compute; reflexivity|].
  split; [vm_compute; reflexivity|]. split; [vm_compute; reflexivity|].
  split; [returns|]. vm_compute. reflexivity.
Qed.

Lemma set_preserves_capacity_witness :
  0 < maxItems (options (testCacheMax 1 notFoundResolver)) /\
  withinCapacity (cache crowded) /\
  exists s',
    set "testing123" [] crowded = Return tt s' /\
    withinCapacity (cache s') /\
    size <$> entries (cache s') = Some 1%nat.
Proof.
  assert (Hpos : 0 < maxItems (options (testCacheMax 1 notFoundResolver)))
    by (vm_compute; reflexivity).
  assert (Hin : withinCapacity (cache crowded)).
  { destruct (entries (cache crowded)) as [m|] eqn:Hm.
    - exists m. split; [exact Hm|].
      assert (E : size <$> entries (cache crowded) = Some 1%nat)
        by (vm_compute; reflexivity).
      rewrite Hm in E. injection E as E. rewrite E. vm_compute. discriminate.
    - assert (E : is_Some (size <$> entries (cache crowded)))
        by (vm_compute; eauto).
      rewrite Hm in E. destruct E as [? E]. discriminate. }
  split; [exact Hpos|]. split; [exact Hin|].
  destruct (set_preserves_capacity notFoundResolver testDialer
              (testOptions notFoundResolver ++ [WithMaxItems 1]) crowded
              "testing123" [] Hpos eq_refl) as [_ Hstep].
  destruct (Hstep Hin) as (m & s' & m' & _ & Hset & _ & _ & Hcap & _).
  exists s'. split; [exact Hset|]. split; [exact Hcap|].
  assert (E : size <$> entries (cache (stateOf (set "testing123" [] crowded) crowded))
              = Some 1%nat) by (vm_compute; reflexivity).
  rewrite Hset in E. exact E.
Defined.

Lemma lookup_disabled_bypasses_cache_witness :
  ttl (options (uncachedCache multiResolver)) = 0 /\
  exists s',
    lookup "testing123" (start (uncachedCache multiResolver))
    = Return (["127.0.0.1"; "127.0.0.2"; "127.0.0.3"; "127.0.0.4"], None) s' /\
    cache s' = uncachedCache multiResolver /\
    trace s' = [EvLookupHost "testing123"].
Proof.
  split; [reflexivity|].
  destruct (lookup_disabled_bypasses_cache "testing123"
              (start (uncachedCache multiResolver)) multiResolver
              (or_intror eq_refl) eq_refl) as (s' & Hl & Hc & _ & Ht & _).
  exists s'. split; [exact Hl|]. split; [exact Hc|exact Ht].
Defined.

(** C6 as stated fails with caching disabled: for the literal
    ["127.0.0.1"] and a resolver that answers with that same address, the
    resolver is called, and nothing is stored under the literal. *)
Lemma ip_literal_resolved_when_disabled :
  net_ParseIP "127.0.0.1" = true /\
  live (uncachedCache singleResolver) 0 "127.0.0.1" = None /\
  dialFrom "127.0.0.1" (start (uncachedCache singleResolver))
  = Return (Some "127.0.0.1", None)
      (afterDial "127.0.0.1" (start (uncachedCache singleResolver))) /\
  trace (afterDial "127.0.0.1" (start (uncachedCache singleResolver)))
  = [EvLookupHost "127.0.0.1"; EvDialContext "tcp" "127.0.0.1"] /\
  entryOf (cache (afterDial "127.0.0.1" (start (uncachedCache singleResolver))))
    "127.0.0.1" = None.
Proof.
  split; [reflexivity|]. split; [vm_compute; reflexivity|].
  split; [returns|]. split; vm_compute; reflexivity.
Qed.

Lemma ip_literal_dialed_directly_witness :
  cachingEnabled (testCache emptyResolver) /\
  net_ParseIP "127.0.0.1" = true /\
  exists s1,
    lookup "127.0.0.1" (start (testCache emptyResolver))
    = Return (["127.0.0.1"], None) s1 /\
    DialContext "tcp" "127.0.0.1" (start (testCache emptyResolver))
    = Return (Some "127.0.0.1", None)
        {| cache := cache s1; world := world s1;
           trace := [EvDialContext "tcp" "127.0.0.1"] |} /\
    entryOf (cache s1) "127.0.0.1"
    = Some {| expires := 1 + 3600 * Second; addrs := ["127.0.0.1"] |}.
Proof.
  set (s := start (testCache emptyResolver)).
  assert (He : cachingEnabled (cache s)) by (split; vm_compute; discriminate).
  assert (Hinv : literalEntries (cache s)).
  { intros k r. unfold entryOf. simpl. rewrite lookup_empty. discriminate. }
  assert (Hroom : hasRoom (cache s) "127.0.0.1").
  { exists ∅. split; [reflexivity|]. split; [vm_compute; discriminate|].
    left. vm_compute. reflexivity. }
  split; [exact He|]. split; [reflexivity|].
  destruct (ip_literal_dialed_directly "tcp" "127.0.0.1" s testDialer 0
              {| tw_clock := 1; tw_rand := 0; tw_iter := 0 |}
              He (ex_intro _ ∅ eq_refl) Hinv eq_refl eq_refl eq_refl)
    as (s1 & Hl & _ & Hd & Hmiss & _).
  exists s1. split; [exact Hl|]. split; [exact Hd|].
  destruct (Hmiss eq_refl) as [_ Hin]. exact (Hin Hroom).
Defined.

Lemma DialContext_selects_address_witness :
  lookup "testing123" (startAt (seeded 6) (testCache multiResolver))
  = Return (["127.0.0.1"; "127.0.0.2"; "127.0.0.3"; "127.0.0.4"], None)
      (afterLookup "testing123" (startAt (seeded 6) (testCache multiResolver))) /\
  (1 < length ["127.0.0.1"; "127.0.0.2"; "127.0.0.3"; "127.0.0.4"])%nat /\
  exists x,
    x = "127.0.0.3" /\
    DialContext "tcp" "testing123" (startAt (seeded 6) (testCache multiResolver))
    = dialer_DialContext "tcp" x
        (setWorld (snd (rand_Int (world (afterLookup "testing123"
                      (startAt (seeded 6) (testCache multiResolver))))))
           (afterLookup "testing123"
              (startAt (seeded 6) (testCache multiResolver)))).
Proof.
  set (s := startAt (seeded 6) (testCache multiResolver)).
  assert (Hl : lookup "testing123" s
               = Return (["127.0.0.1"; "127.0.0.2"; "127.0.0.3"; "127.0.0.4"], None)
                   (afterLookup "testing123" s)) by returns.
  split; [exact Hl|]. split; [simpl; lia|].
  destruct (DialContext_selects_address "tcp" "testing123" s _ _ Hl) as [_ Hmany].
  destruct Hmany as (x & Hx & _ & Hd); [simpl; lia|].
  exists x. split; [|exact Hd].
  vm_compute in Hx. congruence.
Defined.

Lemma DialContext_returns_dialer_result_witness :
  exists s1,
    lookup "testing123" (start (testCache singleResolver))
    = Return (["127.0.0.1"], None) s1 /\
    DialContext "tcp" "testing123" (start (testCache singleResolver))
    = Return (Some "127.0.0.1", None)
        {| cache := cache s1; world := world s1;
           trace := trace s1 ++ [EvDialContext "tcp" "127.0.0.1"] |}.
Proof.
  set (s := start (testCache singleResolver)).
  assert (Hl : lookup "testing123" s
               = Return (["127.0.0.1"], None) (afterLookup "testing123" s))
    by returns.
  destruct (DialContext_returns_dialer_result "tcp" "testing123" s _
              ["127.0.0.1"] testDialer Hl ltac:(discriminate) eq_refl)
    as (x & w & Hx & Hw & Hd).
  exists (afterLookup "testing123" s). split; [exact Hl|].
  apply list_elem_of_singleton in Hx. simpl in Hw. subst x w. exact Hd.
Defined.

Lemma negative_maxItems_writes_nil_map_witness :
  maxItems (options (testCacheMax (-1) singleResolver)) < 0 /\
  ttl (options (testCacheMax (-1) singleResolver)) <> 0 /\
  entries (testCacheMax (-1) singleResolver) = None /\
  lookup "testing123" (start (testCacheMax (-1) singleResolver))
  = Panicked AssignmentToNilMap /\
  ~ (exists s', set "testing123" [] (start (testCacheMax (-1) singleResolver))
                = Return tt s').
Proof.
  set (c := testCacheMax (-1) singleResolver).
  assert (Hneg : maxItems (options c) < 0) by (vm_compute; reflexivity).
  assert (Httl : ttl (options c) <> 0) by (vm_compute; discriminate).
  destruct (negative_maxItems_writes_nil_map singleResolver testDialer
              (testOptions singleResolver ++ [WithMaxItems (-1)])
              testWorld0 [] "testing123" []) as [Hpanic Hsafe].
  destruct (Hpanic Hneg Httl) as (_ & Hnil & Hl).
  split; [exact Hneg|]. split; [exact Httl|]. split; [exact Hnil|].
  split; [exact Hl|].
  intros Hret. apply Hsafe in Hret.
  exact (Z.lt_irrefl 0 (Z.lt_trans _ _ _ Hret Hneg)).
Defined.

Lemma selection_list_length_witness :
  cachingEnabled (testCache emptyResolver) /\
  ttl (options (uncachedCache emptyResolver)) = 0 /\
  DialContext "tcp" "testing123" (start (testCache emptyResolver))
  <> Panicked IntnInvalidArgument /\
  (exists s', lookup "testing123" (start (uncachedCache emptyResolver))
              = Return ([], None) s') /\
  DialContext "tcp" "testing123" (start (uncachedCache emptyResolver))
  = Panicked IntnInvalidArgument.
Proof.
  set (on := start (testCache emptyResolver)).
  set (off := start (uncachedCache emptyResolver)).
  assert (He : cachingEnabled (cache on)) by (split; vm_compute; discriminate).
  split; [exact He|]. split; [reflexivity|].
  destruct (selection_list_length "tcp" "testing123" on) as [Hon _].
  destruct (Hon He) as (_ & Hintn & _).
  split; [exact Hintn|].
  destruct (selection_list_length "tcp" "testing123" off) as [_ Hoff].
  exact (Hoff emptyResolver (or_intror eq_refl) eq_refl eq_refl).
Defined.

(** C1 does not hold of the code: with caching enabled, a resolver failure
    that does not say "no such host" and brings no addresses is stored as a
    negative entry and reported as [errNoSuchHost]; the resolver's own
    error is lost, and the next call is answered from the cache. *)
Theorem transient_failure_cached_as_not_found :
  cachingEnabled (testCache timeoutResolver) /\
  (forall w, LookupHost timeoutResolver "testing123" w
             = (([], Some (errOther "lookup testing123: i/o timeout")), w)) /\
  Contains "lookup testing123: i/o timeout" noSuchHost = false /\
  entryOf (testCache timeoutResolver) "testing123" = None /\
  lookup "testing123" (start (testCache timeoutResolver))
  = Return ([], Some errNoSuchHost)
      (afterLookup "testing123" (start (testCache timeoutResolver))) /\
  entryOf (cache (afterLookup "testing123" (start (testCache timeoutResolver))))
    "testing123"
  = Some {| expires := 1 + 3600 * Second; addrs := [] |} /\
  valueOf (dialFrom "testing123"
             (afterLookup "testing123" (start (testCache timeoutResolver))))
  = Some (None, Some errNoSuchHost) /\
  trace (afterDial "testing123"
           (afterLookup "testing123" (start (testCache timeoutResolver))))
  = [EvLookupHost "testing123"].
Proof.
  split; [split; vm_compute; discriminate|].
  split; [reflexivity|]. split; [reflexivity|]. split; [reflexivity|].
  split; [returns|]. split; [vm_compute; reflexivity|].
  split; vm_compute; reflexivity.
Qed.

(** The scenarios of [TestDial], two calls each. *)
Example TestDial_no_such_host :
  valueOf (dialFrom "testing123" (start (testCache notFoundResolver)))
  = Some (None, Some errNoSuchHost) /\
  valueOf (dialFrom "testing123"
             (afterDial "testing123" (start (testCache notFoundResolver))))
  = Some (None, Some errNoSuchHost) /\
  trace (afterDial "testing123"
           (afterDial "testing123" (start (testCache notFoundResolver))))
  = [EvLookupHost "testing123"].
Proof. repeat split; vm_compute; reflexivity. Qed.

Example TestDial_empty_addrs :
  valueOf (dialFrom "testing123" (start (testCache emptyResolver)))
  = Some (None, Some errNoSuchHost) /\
  valueOf (dialFrom "testing123"
             (afterDial "testing123" (start (testCache emptyResolver))))
  = Some (None, Some errNoSuchHost) /\
  trace (afterDial "testing123"
           (afterDial "testing123" (start (testCache emptyResolver))))
  = [EvLookupHost "testing123"].
Proof. repeat split; vm_compute; reflexivity. Qed.

Example TestDial_single_address :
  valueOf (dialFrom "testing123" (start (testCache singleResolver)))
  = Some (Some "127.0.0.1", None) /\
  valueOf (dialFrom "testing123"
             (afterDial "testing123" (start (testCache singleResolver))))
  = Some (Some "127.0.0.1", None) /\
  trace (afterDial "testing123"
           (afterDial "testing123" (start (testCache singleResolver))))
  = [EvLookupHost "testing123"; EvDialContext "tcp" "127.0.0.1";
     EvDialContext "tcp" "127.0.0.1"].
Proof. repeat split; vm_compute; reflexivity. Qed.

Example TestDial_multiple_address :
  trace (afterDial "testing123"
           (afterDial "testing123" (startAt (seeded 6) (testCache multiResolver))))
  = [EvLookupHost "testing123"; EvDialContext "tcp" "127.0.0.3";
     EvDialContext "tcp" "127.0.0.4"].
Proof. vm_compute; reflexivity. Qed.

Example TestDial_ip :
  valueOf (dialFrom "127.0.0.1" (start (testCache emptyResolver)))
  = Some (Some "127.0.0.1", None) /\
  trace (afterDial "127.0.0.1"
           (afterDial "127.0.0.1" (start (testCache emptyResolver))))
  = [EvDialContext "tcp" "127.0.0.1"; EvDialContext "tcp" "127.0.0.1"].
Proof. repeat split; vm_compute; reflexivity. Qed.

(** ** The further properties at work on the test's collaborators *)

Lemma fresh_hasRoom (r : @Resolver testRuntime) (name : string) :
  hasRoom (testCache r) name.
Proof.
  exists ∅. split; [reflexivity|]. split; [vm_compute; discriminate|].
  left. vm_compute. reflexivity.
Qed.

Lemma fresh_enabled (r : @Resolver testRuntime) : cachingEnabled (testCache r).
Proof. split; vm_compute; discriminate. Qed.

Lemma set_then_get_witness :
  exists s',
    set "testing123" ["127.0.0.1"] (start (testCache singleResolver))
    = Return tt s' /\
    entryOf (cache s') "testing123"
    = Some {| expires := 0 + 3600 * Second; addrs := ["127.0.0.1"] |} /\
    valueOf (get "testing123" s') = Some (["127.0.0.1"], true) /\
    valueOf (get "testing123"
               {| cache := cache s'; world := worldAt (3600 * Second); trace := [] |})
    = Some ([], false).
Proof.
  destruct (set_then_get "testing123" ["127.0.0.1"]
              (start (testCache singleResolver)) 0 (worldAt 1)
              (fresh_hasRoom singleResolver "testing123") eq_refl)
    as (s' & Hset & Hw & _ & _ & He & _ & Hget).
  exists s'. split; [exact Hset|]. split; [exact He|]. split.
  - rewrite (Hget s' eq_refl), Hw. reflexivity.
  - rewrite (Hget {| cache := cache s'; world := worldAt (3600 * Second);
                     trace := [] |} eq_refl).
    reflexivity.
Defined.

Lemma nonpositive_ttl_never_hits_witness :
  ttl (options (negativeTTLCache singleResolver)) <= 0 /\
  set "testing123" ["127.0.0.1"] (start (negativeTTLCache singleResolver))
  = Return tt (afterSet "testing123" ["127.0.0.1"]
                 (start (negativeTTLCache singleResolver))) /\
  valueOf (get "testing123"
             (afterSet "testing123" ["127.0.0.1"]
                (start (negativeTTLCache singleResolver))))
  = Some ([], false).
Proof.
  set (s := start (negativeTTLCache singleResolver)).
  assert (Httl : ttl (options (cache s)) <= 0) by (vm_compute; discriminate).
  assert (Hset : set "testing123" ["127.0.0.1"] s
                 = Return tt (afterSet "testing123" ["127.0.0.1"] s)) by returns.
  split; [exact Httl|]. split; [exact Hset|].
  rewrite (nonpositive_ttl_never_hits "testing123" ["127.0.0.1"] s _ _
             Httl Hset eq_refl); [reflexivity|].
  vm_compute. discriminate.
Defined.

Lemma set_twice_last_wins_witness :
  bind (set "testing123" ["127.0.0.1"]) (fun _ => set "testing123" ["127.0.0.2"])
    (start (testCache singleResolver))
  = Return tt
      (withEntries (start (testCache singleResolver))
         (<["testing123" := {| expires := 1 + 3600 * Second;
                                addrs := ["127.0.0.2"] |}]> ∅)
         (worldAt 2)).
Proof.
  exact (set_twice_last_wins "testing123" ["127.0.0.1"] ["127.0.0.2"]
           (start (testCache singleResolver)) ∅ 0 1 (worldAt 1) (worldAt 2)
           (fresh_hasRoom singleResolver "testing123") eq_refl eq_refl eq_refl).
Defined.

Lemma resolved_addresses_are_cached_witness :
  exists s1,
    lookup "testing123" (start (testCache singleResolver))
    = Return (["127.0.0.1"], None) s1 /\
    trace s1 = [EvLookupHost "testing123"] /\
    lookup "testing123" s1
    = Return (["127.0.0.1"], None) (setWorld (snd (time_Now (world s1))) s1).
Proof.
  set (s := start (testCache singleResolver)).
  edestruct (resolved_addresses_are_cached "testing123" s singleResolver 0 1)
    as (s1 & H1 & H2 & H3 & _ & H5);
    [exact (fresh_enabled singleResolver)
    | exact (fresh_hasRoom singleResolver "testing123")
    | reflexivity | reflexivity | reflexivity | reflexivity | reflexivity
    | discriminate | reflexivity |].
  exists s1. split; [exact H1|]. split; [exact H2|].
  specialize (H5 (world s1) (trace s1)).
  destruct s1 as [c1 w1 tr1]. simpl in *. apply H5.
  rewrite H3. vm_compute. reflexivity.
Defined.


Lemma other_resolver_error_is_dropped_witness :
  Contains "lookup testing123: i/o timeout" noSuchHost = false /\
  exists s1,
    lookup "testing123" (start (testCache flakyResolver))
    = Return (["10.0.0.1"], None) s1 /\
    entryOf (cache s1) "testing123"
    = Some {| expires := 1 + 3600 * Second; addrs := ["10.0.0.1"] |}.
Proof.
  split; [reflexivity|].
  edestruct (other_resolver_error_is_dropped "testing123"
               (start (testCache flakyResolver)) flakyResolver 0 1)
    as (s1 & H1 & _ & H3);
    [exact (fresh_enabled flakyResolver)
    | exact (fresh_hasRoom flakyResolver "testing123")
    | reflexivity | reflexivity | reflexivity | reflexivity | reflexivity
    | reflexivity | reflexivity |].
  exists s1. split; [exact H1|exact H3].
Defined.

Lemma DialContext_call_log_witness :
  exists dialed,
    trace (afterDial "testing123" (start (testCache singleResolver)))
    = [EvLookupHost "testing123"] ++ dialed /\
    (dialed = [] \/ exists x, dialed = [EvDialContext "tcp" x]).
Proof.
  assert (Hd : DialContext "tcp" "testing123" (start (testCache singleResolver))
               = Return (Some "127.0.0.1", None)
                   (afterDial "testing123" (start (testCache singleResolver))))
    by returns.
  destruct (DialContext_call_log "tcp" "testing123" _ _ _ Hd)
    as (dialed & Htr & Hcase & _).
  exists dialed. split; [exact Htr|exact Hcase].
Defined.

Lemma resolution_failure_is_not_dialed_witness :
  lookup "testing123" (start (uncachedCache timeoutResolver))
  = Return ([], Some (errOther "lookup testing123: i/o timeout"))
      (afterLookup "testing123" (start (uncachedCache timeoutResolver))) /\
  DialContext "tcp" "testing123" (start (uncachedCache timeoutResolver))
  = Return (None, Some (errOther "lookup testing123: i/o timeout"))
      (afterLookup "testing123" (start (uncachedCache timeoutResolver))).
Proof.
  assert (Hl : lookup "testing123" (start (uncachedCache timeoutResolver))
               = Return ([], Some (errOther "lookup testing123: i/o timeout"))
                   (afterLookup "testing123" (start (uncachedCache timeoutResolver))))
    by returns.
  split; [exact Hl|].
  exact (proj1 (resolution_failure_is_not_dialed "tcp" "testing123" _ _ _ _ Hl)).
Defined.

Lemma DialContext_keeps_options_witness :
  options (cache (afterDial "testing123" (start (testCache singleResolver))))
  = options (testCache singleResolver).
Proof.
  assert (Hd : DialContext "tcp" "testing123" (start (testCache singleResolver))
               = Return (Some "127.0.0.1", None)
                   (afterDial "testing123" (start (testCache singleResolver))))
    by returns.
  exact (DialContext_keeps_options "tcp" "testing123" _ _ _ Hd).
Defined.

Lemma after_one_dial_reachable :
  reachable (testCache singleResolver)
    (afterDial "testing123" (start (testCache singleResolver))).
Proof.
  apply (reach_DialContext _ (start (testCache singleResolver)) _
           "tcp" "testing123" (Some "127.0.0.1", None)).
  - apply reach_start.
  - returns.
Qed.

Lemma New_DialContext_returns_or_panics_witness :
  0 < maxItems (options (testCache singleResolver)) /\
  ttl (options (testCache singleResolver)) <> 0 /\
  exists res s',
    DialContext "tcp" "127.0.0.1"
      (afterDial "testing123" (start (testCache singleResolver)))
    = Return res s'.
Proof.
  assert (Hpos : 0 < maxItems (options (testCache singleResolver)))
    by (vm_compute; reflexivity).
  assert (Httl : ttl (options (testCache singleResolver)) <> 0)
    by (vm_compute; discriminate).
  split; [exact Hpos|]. split; [exact Httl|].
  exact (proj1 (New_DialContext_returns_or_panics singleResolver testDialer
                  (testOptions singleResolver) _ "tcp" "127.0.0.1"
                  after_one_dial_reachable) Hpos Httl).
Defined.

Lemma crowded_twice_reachable :
  reachable (testCacheMax 1 notFoundResolver) (afterDial "testing123" crowded).
Proof.
  apply (reach_DialContext _ crowded _ "tcp" "testing123"
           (None, Some errNoSuchHost)); [|returns].
  apply (reach_DialContext _ crowdedStart _ "tcp" "a.example"
           (None, Some errNoSuchHost)); [apply reach_start|returns].
Qed.

Lemma New_store_stays_within_capacity_witness :
  0 < maxItems (options (testCacheMax 1 notFoundResolver)) /\
  exists m, entries (cache (afterDial "testing123" crowded)) = Some m /\
            Z.of_nat (size m) <= 1.
Proof.
  assert (Hpos : 0 < maxItems (options (testCacheMax 1 notFoundResolver)))
    by (vm_compute; reflexivity).
  split; [exact Hpos|].
  exact (New_store_stays_within_capacity notFoundResolver testDialer
           (testOptions notFoundResolver ++ [WithMaxItems 1]) _
           Hpos crowded_twice_reachable).
Defined.

Lemma literal_dial_reachable :
  reachable (testCache emptyResolver)
    (afterDial "127.0.0.1" (start (testCache emptyResolver))).
Proof.
  apply (reach_DialContext _ (start (testCache emptyResolver)) _
           "tcp" "127.0.0.1" (Some "127.0.0.1", None)).
  - apply reach_start.
  - returns.
Qed.

Lemma New_literal_entries_hold_literal_witness :
  exists r,
    entryOf (cache (afterDial "127.0.0.1" (start (testCache emptyResolver))))
      "127.0.0.1" = Some r /\
    expires r = 1 + 3600 * Second /\
    addrs r = ["127.0.0.1"].
Proof.
  assert (He : entryOf
                 (cache (afterDial "127.0.0.1" (start (testCache emptyResolver))))
                 "127.0.0.1"
               = Some {| expires := 1 + 3600 * Second; addrs := ["127.0.0.1"] |})
    by (vm_compute; reflexivity).
  eexists. split; [exact He|]. split; [reflexivity|].
  exact (New_literal_entries_hold_literal emptyResolver testDialer
           (testOptions emptyResolver) _ "127.0.0.1" _
           literal_dial_reachable He eq_refl).
Defined.
